(** * openclaw-channel-talk: inbound event processing, access gating and
      block formatting

    A shallow embedding of the TypeScript sources
      - [src/api.ts]      (markdown/block conversion, the send entry points),
      - [src/webhook.ts]  (push-event handler and [processWebhookEvent]),
      - [src/function.ts] (command handler and [processFunctionRequest]),
      - [src/runtime.ts]  (the plugin API singleton),
      - [src/channel.ts]  (account configuration, [startAccount]),
    followed by the properties established about them.

    Conventions.
    - A JavaScript string is the list of its UTF-16 code units ([jsstring]).
    - An optional property ([x?: T]) is an [option]; [undefined] is [None].
    - Calls into the host runtime ([runtime.channel.*]) and the HTTP client
      are recorded in an effect trace; what the host answers is read from a
      record of oracles ([Runtime]).  Log lines ([target.log]) are not part
      of the trace. *)

From Stdlib Require Import NArith String Ascii Bool Lia.
From Stdlib Require Import DecimalString.
From stdpp Require Import base option list countable gmap.

Local Open Scope N_scope.

(* ================================================================== *)
(** ** JavaScript strings and the built-ins the sources call            *)
(* ================================================================== *)

Module Js.

(** UTF-16 code units. *)
Definition jsstring : Type := list N.

(** An ASCII literal of the source as a [jsstring]. *)
Definition js (s : string) : jsstring :=
  map N_of_ascii (list_ascii_of_string s).

Arguments js : simpl never.

Definition strEq (a b : jsstring) : bool := bool_decide (a = b).
Arguments strEq : simpl never.

(** [!s] is false exactly for the non-empty string. *)
Definition nonEmpty (s : jsstring) : bool :=
  match s with [] => false | _ :: _ => true end.

(** Truthiness of a [string | undefined] value. *)
Definition truthy (o : option jsstring) : bool :=
  match o with Some s => nonEmpty s | None => false end.

(** [a ?? b] with an optional right operand. *)
Definition nullish {A} (a b : option A) : option A :=
  match a with Some x => Some x | None => b end.

(** Optional chaining [o?.f] where the property [f] is itself optional. *)
Definition chain {A B} (o : option A) (f : A -> option B) : option B :=
  match o with Some x => f x | None => None end.

(** [a || b] on [string | undefined] operands. *)
Definition orElse (a b : option jsstring) : option jsstring :=
  if truthy a then a else b.

(** WhiteSpace and LineTerminator code points (ECMA-262, 12.2 and 12.3);
    all of them lie in the basic plane. *)
Definition isWhiteSpace (c : N) : bool :=
  (c =? 9) || (c =? 10) || (c =? 11) || (c =? 12) || (c =? 13)
  || (c =? 32) || (c =? 160) || (c =? 5760)
  || ((8192 <=? c) && (c <=? 8202))
  || (c =? 8232) || (c =? 8233) || (c =? 8239) || (c =? 8287)
  || (c =? 12288) || (c =? 65279).

Fixpoint trimStart (s : jsstring) : jsstring :=
  match s with
  | [] => []
  | c :: s' => if isWhiteSpace c then trimStart s' else s
  end.

Definition trimEnd (s : jsstring) : jsstring :=
  rev (trimStart (rev s)).

(** [String.prototype.trim]. *)
Definition trim (s : jsstring) : jsstring := trimEnd (trimStart s).

Fixpoint startsWith (s p : jsstring) {struct p} : bool :=
  match p, s with
  | [], _ => true
  | _ :: _, [] => false
  | a :: p', b :: s' => (a =? b) && startsWith s' p'
  end.

(** [String.prototype.includes]: [p] occurs in [s] as a substring. *)
Fixpoint includes (s p : jsstring) : bool :=
  startsWith s p ||
  match s with
  | [] => false
  | _ :: s' => includes s' p
  end.

(** [Array.prototype.includes] on an array of strings. *)
Definition arrIncludes (l : list jsstring) (x : jsstring) : bool :=
  existsb (strEq x) l.

(** [s.split(sep)] for a one-unit separator. *)
Fixpoint split (sep : N) (s : jsstring) : list jsstring :=
  match s with
  | [] => [[]]
  | c :: s' =>
      if c =? sep then [] :: split sep s'
      else match split sep s' with
           | l :: ls => (c :: l) :: ls
           | [] => [[c]]
           end
  end.

(** [parts.join(sep)]. *)
Fixpoint join (sep : jsstring) (parts : list jsstring) : jsstring :=
  match parts with
  | [] => []
  | [x] => x
  | x :: rest => x ++ sep ++ join sep rest
  end.

(** Decimal rendering of a non-negative integer (template literals). *)
Definition ofNumber (n : N) : jsstring :=
  js (NilZero.string_of_uint (N.to_uint n)).

(** *** [s.replace(/<[^>]+>/g, '')]

    At a [<] the pattern matches when at least one unit other than [>]
    follows and a [>] closes the run; the greedy class stops at the
    first [>].  [indexOfGt] finds that [>]. *)
Fixpoint indexOfGt (s : jsstring) : option nat :=
  match s with
  | [] => None
  | c :: s' => if c =? 62 then Some O else S <$> indexOfGt s'
  end.

Fixpoint stripFrom (skip : nat) (s : jsstring) : jsstring :=
  match s with
  | [] => []
  | c :: s' =>
      match skip with
      | S k => stripFrom k s'
      | O =>
          if c =? 60 then
            match indexOfGt s' with
            | Some (S n) => stripFrom (S (S n)) s'
            | _ => c :: stripFrom O s'
            end
          else c :: stripFrom O s'
      end
  end.

Definition stripTags (s : jsstring) : jsstring := stripFrom O s.

(** *** [text.replace(/<code>/g, replacement)]

    The replacement is a string, so it goes through GetSubstitution
    (ECMA-262, 22.1.3.19.1).  The pattern has no capture group: [$$],
    [$&], [$`] and [$'] are expanded, every other [$] stays. *)
Fixpoint getSubstitution (matched pre post repl : jsstring) : jsstring :=
  match repl with
  | [] => []
  | c :: r =>
      if c =? 36 then
        match r with
        | [] => [c]
        | d :: r' =>
            if d =? 36 then 36 :: getSubstitution matched pre post r'
            else if d =? 38 then matched ++ getSubstitution matched pre post r'
            else if d =? 96 then pre ++ getSubstitution matched pre post r'
            else if d =? 39 then post ++ getSubstitution matched pre post r'
            else c :: getSubstitution matched pre post r
        end
      else c :: getSubstitution matched pre post r
  end.

Definition codePlaceholder : jsstring := js "<code>".

Fixpoint replaceFrom (repl preRev : jsstring) (skip : nat) (s : jsstring)
  : jsstring :=
  match s with
  | [] => []
  | c :: s' =>
      match skip with
      | S k => replaceFrom repl (c :: preRev) k s'
      | O =>
          if startsWith s codePlaceholder then
            getSubstitution codePlaceholder (rev preRev) (drop 6 s) repl
              ++ replaceFrom repl (c :: preRev) 5 s'
          else c :: replaceFrom repl (c :: preRev) O s'
      end
  end.

Definition replaceCode (text repl : jsstring) : jsstring :=
  replaceFrom repl [] O text.

End Js.
Import Js.

Notation "o ?. f" := (chain o f) (at level 50, left associativity).
Notation "a ?? b" := (nullish a b) (at level 55, right associativity).

(* ================================================================== *)
(** ** src/api.ts                                                       *)
(* ================================================================== *)

Module Api.

Record ChannelTalkCredentials := {
  accessKey : jsstring;
  accessSecret : jsstring
}.

(** [MessageBlock = TextBlock | CodeBlock | BulletsBlock]. *)
Inductive MessageBlock :=
| TextBlock (value : jsstring)
| CodeBlock (value : jsstring) (language : option jsstring)
| BulletsBlock (blocks : list jsstring).

(** The untyped block shape [blocksToText] reads:
    [{ type: string; value?: string; blocks?: unknown[] }]; of a
    sub-block only its [value] is read. *)
Record WireBlock := {
  wb_type : jsstring;
  wb_value : option jsstring;
  wb_blocks : option (list (option jsstring))
}.

(** A [MessageBlock] seen through the untyped shape. *)
Definition toWire (b : MessageBlock) : WireBlock :=
  match b with
  | TextBlock v =>
      {| wb_type := js "text"; wb_value := Some v; wb_blocks := None |}
  | CodeBlock v _ =>
      {| wb_type := js "code"; wb_value := Some v; wb_blocks := None |}
  | BulletsBlock bs =>
      {| wb_type := js "bullets"; wb_value := None;
         wb_blocks := Some (map Some bs) |}
  end.

(** The fence pattern of [markdownToBlocks]: a line that is three
    backticks followed only by word characters (the class [\w], without
    the unicode or ignore-case flags); the word characters are the
    captured language tag. *)
Definition isWordChar (c : N) : bool :=
  ((65 <=? c) && (c <=? 90)) || ((97 <=? c) && (c <=? 122))
  || ((48 <=? c) && (c <=? 57)) || (c =? 95).

Definition fenceMatch (line : jsstring) : option jsstring :=
  match line with
  | a :: b :: c :: rest =>
      if (a =? 96) && (b =? 96) && (c =? 96) && forallb isWordChar rest
      then Some rest else None
  | _ => None
  end.

(** The mutable locals of [markdownToBlocks]. *)
Record MdState := {
  blocks : list MessageBlock;
  inCode : bool;
  codeLang : jsstring;
  codeLines : list jsstring;
  textLines : list jsstring
}.

Definition nl : jsstring := [10].

Definition flushText (st : MdState) : MdState :=
  match textLines st with
  | [] => st
  | _ :: _ =>
      let value := trim (join nl (textLines st)) in
      {| blocks := if nonEmpty value
                   then blocks st ++ [TextBlock value] else blocks st;
         inCode := inCode st; codeLang := codeLang st;
         codeLines := codeLines st; textLines := [] |}
  end.

Definition flushCode (st : MdState) : MdState :=
  match codeLines st with
  | [] => st
  | _ :: _ =>
      let block :=
        CodeBlock (join nl (codeLines st))
                  (if nonEmpty (codeLang st) then Some (codeLang st)
                   else None) in
      {| blocks := blocks st ++ [block];
         inCode := inCode st; codeLang := [];
         codeLines := []; textLines := textLines st |}
  end.

(** One iteration of [for (const line of lines)]. *)
Definition mdStep (st : MdState) (line : jsstring) : MdState :=
  match fenceMatch line with
  | Some lang =>
      if negb (inCode st) then
        let st' := flushText st in
        {| blocks := blocks st'; inCode := true; codeLang := lang;
           codeLines := codeLines st'; textLines := textLines st' |}
      else
        let st' := flushCode st in
        {| blocks := blocks st'; inCode := false; codeLang := codeLang st';
           codeLines := codeLines st'; textLines := textLines st' |}
  | None =>
      if inCode st then
        {| blocks := blocks st; inCode := inCode st;
           codeLang := codeLang st;
           codeLines := codeLines st ++ [line];
           textLines := textLines st |}
      else
        {| blocks := blocks st; inCode := inCode st;
           codeLang := codeLang st; codeLines := codeLines st;
           textLines := textLines st ++ [line] |}
  end.

Definition mdInit : MdState :=
  {| blocks := []; inCode := false; codeLang := [];
     codeLines := []; textLines := [] |}.

Definition markdownToBlocks (text : jsstring) : list MessageBlock :=
  let st := fold_left mdStep (split 10 text) mdInit in
  let st := if inCode st then flushCode st else st in
  let st := flushText st in
  match blocks st with
  | [] => [TextBlock text]
  | bs => bs
  end.

(** The [parts] pushed for one block. *)
Definition blockParts (block : WireBlock) : list jsstring :=
  if strEq (wb_type block) (js "text") && truthy (wb_value block) then
    [stripTags (default [] (wb_value block))]
  else if strEq (wb_type block) (js "code") && truthy (wb_value block) then
    [js "```" ++ nl ++ default [] (wb_value block) ++ nl ++ js "```"]
  else if strEq (wb_type block) (js "bullets") then
    match wb_blocks block with
    | Some subs =>
        flat_map (fun sub => if truthy sub
                             then [js "- " ++ stripTags (default [] sub)]
                             else []) subs
    | None => []
    end
  else [].

Definition blocksToText (bs : list WireBlock) : jsstring :=
  join nl (flat_map blockParts bs).

End Api.

(* ================================================================== *)
(** ** src/channel.ts: account configuration                            *)
(* ================================================================== *)

Module Config.

(** [dmPolicy?: 'open' | 'pairing' | 'allowlist' | 'disabled']. *)
Inductive DmPolicy :=
| PolicyOpen
| PolicyPairing
| PolicyAllowlist
| PolicyDisabled.

Record ChannelTalkAccountConfig := {
  cfg_enabled : option bool;
  cfg_name : option jsstring;
  cfg_accessKey : option jsstring;
  cfg_accessSecret : option jsstring;
  cfg_botName : option jsstring;
  cfg_dmPolicy : option DmPolicy;
  cfg_allowFrom : option (list jsstring);
  cfg_groupAllowFrom : option (list jsstring);
  cfg_triggerKeywords : option (list jsstring);
  cfg_mediaMaxMb : option N
}.

(** The empty object of [accounts[id] ?? {}]. *)
Definition emptyAccount : ChannelTalkAccountConfig :=
  {| cfg_enabled := None; cfg_name := None; cfg_accessKey := None;
     cfg_accessSecret := None; cfg_botName := None; cfg_dmPolicy := None;
     cfg_allowFrom := None; cfg_groupAllowFrom := None;
     cfg_triggerKeywords := None; cfg_mediaMaxMb := None |}.

(** [cfg.channels['channel-talk']]. *)
Record ChannelSection := {
  accounts : option (gmap jsstring ChannelTalkAccountConfig)
}.

(** The part of the host configuration the plugin reads. *)
Record OpenClawConfig := {
  channels : option (gmap jsstring ChannelSection)
}.

Definition channelName : jsstring := js "channel-talk".

(** [cfg.channels?.['channel-talk']?.accounts?.[accountId] ?? {}].  The
    map holds the properties the configuration itself gives to
    [accounts].  For the twelve keys every object inherits ([constructor],
    [toString], ...) the property read of the code finds the inherited
    member when the configuration has none of its own: an object without
    credentials, flags, policy or lists, like the empty one, but not the
    empty one itself, and a function shows a [name] of its own. *)
Definition accountOf (cfg : OpenClawConfig) (accountId : jsstring)
  : ChannelTalkAccountConfig :=
  default emptyAccount
    (Some cfg ?. channels ?. (fun ch => ch !! channelName)
              ?. accounts ?. (fun acc => acc !! accountId)).

End Config.
Import Config.

(* ================================================================== *)
(** ** The host runtime and src/runtime.ts                              *)
(* ================================================================== *)

Module Host.

(** The object handed to [finalizeInboundContext]. *)
Record InboundContext := {
  Body : jsstring;
  RawBody : jsstring;
  CommandBody : jsstring;
  BodyForAgent : jsstring;
  BodyForCommands : jsstring;
  From : jsstring;
  To : jsstring;
  SessionKey : jsstring;
  AccountId : jsstring;
  ChatType : jsstring;
  ConversationLabel : jsstring;
  SenderName : jsstring;
  SenderId : jsstring;
  SenderUsername : jsstring;
  Provider : jsstring;
  Surface : jsstring;
  MessageSid : jsstring;
  MessageSidFull : jsstring;
  Timestamp : N;
  OriginatingChannel : jsstring;
  OriginatingTo : jsstring;
  GroupSubject : option jsstring
}.

(** What the reply dispatcher passes to [deliver]. *)
Record ReplyPayload := {
  text : option jsstring;
  mediaUrl : option jsstring
}.

Inductive PeerKind := PeerGroup | PeerDm.

Record PairingUpsert := {
  code : jsstring;
  created : bool
}.

(** Answers of the host ([runtime.channel.*]); the host is not part of
    the repository.  [replyPayloads ctx] are the payloads the reply
    dispatcher delivers for [ctx], in order. *)
Record Runtime := {
  readAllowFromStore : jsstring -> list jsstring;
  upsertPairingRequest : jsstring -> jsstring -> jsstring -> PairingUpsert;
  buildPairingReply : jsstring -> jsstring -> jsstring -> jsstring;
  resolveAgentRoute : jsstring -> jsstring -> PeerKind -> jsstring -> jsstring;
  replyPayloads : InboundContext -> list ReplyPayload
}.

(** [OpenClawPluginApi], as far as it is used. *)
Record PluginApi := {
  config : OpenClawConfig;
  runtime : Runtime
}.

(** How an async function settles. *)
Inductive Completion :=
| Returned
| Threw (message : jsstring).

(** [getChannelTalkApi] on the module variable [pluginApi]. *)
Definition getChannelTalkApi (pluginApi : option PluginApi)
  : PluginApi + jsstring :=
  match pluginApi with
  | Some api => inl api
  | None => inr (js "Channel Talk plugin not initialized")
  end.

End Host.
Import Host.

(* ================================================================== *)
(** ** src/api.ts: sending                                              *)
(* ================================================================== *)

Module Send.
Import Api.

Inductive SendChatType := SendGroup | SendUserChat.

(** The request path before percent-encoding: which collection, the id,
    whether the id goes through [encodeURIComponent], and the [botName]
    query parameter when one is appended. *)
Inductive ApiPath :=
| UserChatMessages (userChatId : jsstring) (botName : option jsstring)
| GroupMessages (groupId : jsstring) (encoded : bool)
                (botName : option jsstring).

(** One call of [apiRequest] with method POST. *)
Record ApiPost := {
  post_creds : ChannelTalkCredentials;
  post_path : ApiPath;
  post_blocks : list MessageBlock
}.

(** The arguments of one call of [sendMessage]. *)
Record SendCall := {
  send_creds : ChannelTalkCredentials;
  send_chatId : jsstring;
  send_text : jsstring;
  send_botName : option jsstring;
  send_chatType : SendChatType
}.

Definition botNameParam (botName : option jsstring) : option jsstring :=
  if truthy botName then botName else None.

Definition sendUserChatMessage (creds : ChannelTalkCredentials)
  (userChatId text : jsstring) (botName : option jsstring) : ApiPost :=
  {| post_creds := creds;
     post_path := UserChatMessages userChatId (botNameParam botName);
     post_blocks := markdownToBlocks text |}.

Definition sendGroupMessage (creds : ChannelTalkCredentials)
  (groupId text : jsstring) (botName : option jsstring) : ApiPost :=
  {| post_creds := creds;
     post_path := GroupMessages groupId (negb (startsWith groupId [64]))
                                (botNameParam botName);
     post_blocks := markdownToBlocks text |}.

(** [sendMessage]: the request a call turns into. *)
Definition sendMessage (c : SendCall) : ApiPost :=
  match send_chatType c with
  | SendGroup =>
      sendGroupMessage (send_creds c) (send_chatId c) (send_text c)
                       (send_botName c)
  | SendUserChat =>
      sendUserChatMessage (send_creds c) (send_chatId c) (send_text c)
                          (send_botName c)
  end.

End Send.
Import Send.

(* ================================================================== *)
(** ** src/webhook.ts: event processing                                 *)
(* ================================================================== *)

Module Webhook.
Import Api.

(** [WebhookTarget]; the [log] sink is left out with the log lines. *)
Record WebhookTarget := {
  accountId : jsstring;
  creds : ChannelTalkCredentials;
  botName : option jsstring;
  groupAllowFrom : option (list jsstring);
  triggerKeywords : list jsstring;
  cfg : OpenClawConfig
}.

(** [ChannelTalkWebhookEvent].  The declared fields [updatedAt] and
    [files] of the entity are never read and are left out. *)
Record Entity := {
  e_id : option jsstring;
  e_chatId : option jsstring;
  e_chatType : option jsstring;
  e_personType : option jsstring;
  e_personId : option jsstring;
  e_plainText : option jsstring;
  e_blocks : option (list WireBlock);
  e_createdAt : option N
}.

Record RefUserChat := {
  uc_id : option jsstring;
  uc_userId : option jsstring;
  uc_name : option jsstring;
  uc_state : option jsstring
}.

Record RefProfile := {
  pr_email : option jsstring;
  pr_mobileNumber : option jsstring;
  pr_name : option jsstring
}.

Record RefUser := {
  u_id : option jsstring;
  u_name : option jsstring;
  u_profile : option RefProfile
}.

Record RefManager := {
  m_id : option jsstring;
  m_name : option jsstring;
  m_email : option jsstring
}.

Record Refers := {
  userChat : option RefUserChat;
  user : option RefUser;
  manager : option RefManager
}.

Record ChannelTalkWebhookEvent := {
  ev_event : option jsstring;
  ev_type : option jsstring;
  entity : option Entity;
  refers : option Refers
}.

(** [o === lit] for an optional string property. *)
Definition optIs (o : option jsstring) (lit : jsstring) : bool :=
  match o with Some s => strEq s lit | None => false end.

(** The calls that leave the plugin, in program order. *)
Inductive Effect :=
| ReadAllowFromStore (channel : jsstring)
| UpsertPairingRequest (channel id name : jsstring)
| SendMessage (call : SendCall)
| DispatchReply (ctx : InboundContext).

Record Outcome := {
  effects : list Effect;
  completion : Completion
}.

(** The HTTP requests a trace issues through api.ts. *)
Definition requestsOf (es : list Effect) : list ApiPost :=
  flat_map (fun e => match e with
                     | SendMessage c => [sendMessage c]
                     | _ => []
                     end) es.

(** A bare [return;]. *)
Definition dropped : Outcome :=
  {| effects := []; completion := Returned |}.

(** [message.plainText?.trim()
      ?? (message.blocks ? blocksToText(message.blocks) : '').trim()]. *)
Definition rawBodyOf (message : Entity) : jsstring :=
  match e_plainText message with
  | Some p => trim p
  | None =>
      trim (match e_blocks message with
            | Some bs => blocksToText bs
            | None => []
            end)
  end.

(** What the checks of lines 139-165 leave for the rest of the run. *)
Record Accepted := {
  a_message : Entity;
  a_isGroupChat : bool;
  a_chatId : jsstring;
  a_rawBody : jsstring
}.

Record Sender := {
  senderId : jsstring;
  senderName : jsstring;
  senderEmail : option jsstring
}.

(** Lines 167-185: manager record for a manager author, user record
    otherwise. *)
Definition resolveSender (event : ChannelTalkWebhookEvent)
  (message : Entity) : Sender :=
  match (if optIs (e_personType message) (js "manager")
         then refers event ?. manager else None) with
  | Some mgr =>
      {| senderId := default (js "unknown")
                       (e_personId message ?? m_id mgr);
         senderName := default (js "Manager") (m_name mgr);
         senderEmail := m_email mgr |}
  | None =>
      {| senderId := default (js "unknown")
                       (e_personId message ?? (refers event ?. user ?. u_id));
         senderName := default (js "User")
                         ((refers event ?. user ?. u_profile ?. pr_name)
                          ?? (refers event ?. user ?. u_name)
                          ?? (refers event ?. userChat ?. uc_name));
         senderEmail := refers event ?. user ?. u_profile ?. pr_email |}
  end.

Definition sendChatType (isGroupChat : bool) : SendChatType :=
  if isGroupChat then SendGroup else SendUserChat.

(** The [deliver] callback handed to the reply dispatcher. *)
Definition deliver (target : WebhookTarget) (chatId : jsstring)
  (isGroupChat : bool) (payload : ReplyPayload) : list Effect :=
  let text := trim <$> text payload in
  if negb (truthy text) then []
  else [SendMessage {| send_creds := creds target;
                       send_chatId := chatId;
                       send_text := default [] text;
                       send_botName := botName target;
                       send_chatType := sendChatType isGroupChat |}].

(** The argument of [finalizeInboundContext] (lines 259-282). *)
Definition inboundContext (rt : Runtime) (now : N)
  (target : WebhookTarget) (a : Accepted) (s : Sender) : InboundContext :=
  let chatId := a_chatId a in
  let rawBody := a_rawBody a in
  let messageId := default [] (e_id (a_message a)) in
  let sessionKey :=
    resolveAgentRoute rt channelName (accountId target)
      (if a_isGroupChat a then PeerGroup else PeerDm) chatId in
  {| Body := rawBody;
     RawBody := rawBody;
     CommandBody := rawBody;
     BodyForAgent := rawBody;
     BodyForCommands := rawBody;
     From := js "channel-talk:" ++ senderId s;
     To := js "channel-talk:" ++ chatId;
     SessionKey := sessionKey;
     AccountId := accountId target;
     ChatType := if a_isGroupChat a then js "channel" else js "direct";
     ConversationLabel := senderName s;
     SenderName := senderName s;
     SenderId := senderId s;
     SenderUsername := default (senderId s) (senderEmail s);
     Provider := js "channel-talk";
     Surface := js "channel-talk";
     MessageSid := messageId;
     MessageSidFull := messageId;
     Timestamp := default now (e_createdAt (a_message a));
     OriginatingChannel := js "channel-talk";
     OriginatingTo := js "channel-talk:" ++ chatId;
     GroupSubject := if a_isGroupChat a
                     then Some (js "team-chat:" ++ chatId) else None |}.

(** Lines 247-308: route, context, dispatch; every delivered payload
    goes through [deliver]. *)
Definition dispatch (rt : Runtime) (now : N) (target : WebhookTarget)
  (a : Accepted) (s : Sender) : list Effect :=
  let ctx := inboundContext rt now target a s in
  DispatchReply ctx
    :: flat_map (deliver target (a_chatId a) (a_isGroupChat a))
                (replyPayloads rt ctx).

(** What [buildPairingReply] answers for the sender (lines 220-227). *)
Definition pairingTemplate (rt : Runtime) (message : Entity)
  (sender code : jsstring) : jsstring :=
  let personType :=
    if optIs (e_personType message) (js "manager")
    then js "manager" else js "user" in
  buildPairingReply rt channelName
    (js "Channel Talk " ++ personType ++ js " ID: " ++ sender) code.

(** The text of the pairing message: the template with every code
    placeholder replaced (line 230). *)
Definition pairingReplyText (rt : Runtime) (message : Entity)
  (sender code : jsstring) : jsstring :=
  replaceCode (pairingTemplate rt message sender code) code.

(** Line 204: membership of the sender, or of the wildcard entry. *)
Definition isAllowed (combinedAllowFrom : list jsstring)
  (sender : jsstring) : bool :=
  arrIncludes combinedAllowFrom sender || arrIncludes combinedAllowFrom [42].

(** Lines 187-308 once the plugin API is at hand: the pairing check,
    then route, context and dispatch. *)
Definition gateAndDispatch (api : PluginApi) (now : N)
  (target : WebhookTarget) (a : Accepted) (s : Sender) : list Effect :=
  let rt := runtime api in
  let account := accountOf (config api) (accountId target) in
  let dmPolicy := default PolicyPairing (cfg_dmPolicy account) in
  let configAllowFrom := default [] (cfg_allowFrom account) in
  match dmPolicy with
  | PolicyPairing =>
      let storeAllowFrom := readAllowFromStore rt channelName in
      let combinedAllowFrom := configAllowFrom ++ storeAllowFrom in
      ReadAllowFromStore channelName ::
      if negb (isAllowed combinedAllowFrom (senderId s)) then
        let r := upsertPairingRequest rt channelName
                   (senderId s) (senderName s) in
        UpsertPairingRequest channelName (senderId s) (senderName s) ::
        if created r then
          [SendMessage
             {| send_creds := creds target;
                send_chatId := a_chatId a;
                send_text := pairingReplyText rt (a_message a)
                                              (senderId s) (code r);
                send_botName := botName target;
                send_chatType := sendChatType (a_isGroupChat a) |}]
        else []
      else dispatch rt now target a s
  | _ => dispatch rt now target a s
  end.

Section Processing.

(** [String.prototype.toLowerCase]: the engine's Unicode case mapping. *)
Variable toLowerCase : jsstring -> jsstring.

(** Lines 161-164: some configured keyword occurs in the text. *)
Definition triggered (keywords : list jsstring) (rawBody : jsstring) : bool :=
  let lower := toLowerCase rawBody in
  existsb (fun kw => includes lower (toLowerCase kw)) keywords.

(** Lines 139-165: every early [return] before the sender is resolved. *)
Definition accept (event : ChannelTalkWebhookEvent) (target : WebhookTarget)
  : option Accepted :=
  if negb (optIs (ev_type event) (js "Message")) then None else
  match entity event with
  | None => None
  | Some message =>
      if optIs (e_personType message) (js "bot") then None else
      let chatType := default (js "userChat") (e_chatType message) in
      let isGroupChat := strEq chatType (js "group") in
      let chatId := e_chatId message ?? (refers event ?. userChat ?. uc_id) in
      if negb (truthy chatId) then None else
      let rawBody := rawBodyOf message in
      if negb (nonEmpty rawBody) then None else
      if isGroupChat && (0 <? length (triggerKeywords target))%nat
         && negb (triggered (triggerKeywords target) rawBody)
      then None
      else Some {| a_message := message; a_isGroupChat := isGroupChat;
                   a_chatId := default [] chatId; a_rawBody := rawBody |}
  end.

(** The message filter: the early returns of lines 139, 142, 145, 158
    and 164, those that look at the message and the trigger keywords.
    (The return of line 153, on the chat id, is the one [accept] adds;
    see [accept_shouldProcess].) *)
Definition shouldProcess (event : ChannelTalkWebhookEvent)
  (target : WebhookTarget) : bool :=
  if negb (optIs (ev_type event) (js "Message")) then false else
  match entity event with
  | None => false
  | Some message =>
      if optIs (e_personType message) (js "bot") then false else
      let chatType := default (js "userChat") (e_chatType message) in
      let isGroupChat := strEq chatType (js "group") in
      let rawBody := rawBodyOf message in
      if negb (nonEmpty rawBody) then false else
      if isGroupChat && (0 <? length (triggerKeywords target))%nat
         && negb (triggered (triggerKeywords target) rawBody)
      then false
      else true
  end.

(** [processWebhookEvent]; [pluginApi] is the module variable of
    runtime.ts and [now] the reading of [Date.now()]. *)
Definition processWebhookEvent (pluginApi : option PluginApi) (now : N)
  (event : ChannelTalkWebhookEvent) (target : WebhookTarget) : Outcome :=
  match accept event target with
  | None => dropped
  | Some a =>
      let s := resolveSender event (a_message a) in
      match getChannelTalkApi pluginApi with
      | inr err => {| effects := []; completion := Threw err |}
      | inl api =>
          {| effects := gateAndDispatch api now target a s;
             completion := Returned |}
      end
  end.

End Processing.

End Webhook.

(* ================================================================== *)
(** ** The HTTP boundary shared by both handlers                        *)
(* ================================================================== *)

Module Http.

(** The [error] strings [readJsonBody] resolves with. *)
Inductive ReadError :=
| payload_too_large
| invalid_json
| read_error.

Definition errorText (e : ReadError) : jsstring :=
  match e with
  | payload_too_large => js "payload_too_large"
  | invalid_json => js "invalid_json"
  | read_error => js "read_error"
  end.

(** How the request stream finishes: the [end] or the [error] event. *)
Inductive StreamClose := StreamEnd | StreamError.

(** The request as the handlers see it: the method, the pathname of
    [new URL(req.url ?? '/', 'http://localhost')], the [data] chunks in
    arrival order and the closing event. *)
Record IncomingMessage := {
  req_method : option jsstring;
  req_pathname : jsstring;
  req_chunks : list (list Byte.byte);
  req_close : StreamClose
}.

(** The value of [JSON.parse(raw) as T].  Reading a property of [null]
    throws; any other value is read through the optional properties of
    [T]. *)
Inductive Json (T : Type) :=
| JsonNull
| JsonValue (v : T).
Arguments JsonNull {T}.
Arguments JsonValue {T} v.

(** The [data] listener: [None] once [totalBytes] exceeds [maxBytes]. *)
Fixpoint readChunks (maxBytes totalBytes : N) (chunks : list (list Byte.byte))
  (acc : list Byte.byte) : option (list Byte.byte) :=
  match chunks with
  | [] => Some acc
  | chunk :: rest =>
      let totalBytes := totalBytes + N.of_nat (length chunk) in
      if maxBytes <? totalBytes then None
      else readChunks maxBytes totalBytes rest (acc ++ chunk)
  end.

(** [readJsonBody] (the two copies in webhook.ts and function.ts differ
    in the type of [data] only).  [parse] is UTF-8 decoding followed by
    [JSON.parse]; [None] is its [SyntaxError]. *)
Definition readJsonBody {T} (parse : list Byte.byte -> option (Json T))
  (req : IncomingMessage) (maxBytes : N) : Json T + ReadError :=
  match readChunks maxBytes 0 (req_chunks req) [] with
  | None => inr payload_too_large
  | Some raw =>
      match req_close req with
      | StreamEnd =>
          match parse raw with
          | Some data => inl data
          | None => inr invalid_json
          end
      | StreamError => inr read_error
      end
  end.

Definition maxBodyBytes : N := 5 * 1024 * 1024.

Record ServerResponse := {
  statusCode : N;
  headers : list (jsstring * jsstring);
  body : jsstring
}.

(** What a handler did with a request: whether it owned it, the response
    it ended, and the background task it started, if any. *)
Record Handled (B : Type) := {
  owned : bool;
  response : option ServerResponse;
  background : option B
}.
Arguments owned {B} _.
Arguments response {B} _.
Arguments background {B} _.

Definition notOurs {B} : Handled B :=
  {| owned := false; response := None; background := None |}.

Definition respond {B} (status : N) (hs : list (jsstring * jsstring))
  (b : jsstring) (bg : option B) : Handled B :=
  {| owned := true;
     response := Some {| statusCode := status; headers := hs; body := b |};
     background := bg |}.

(** [url.pathname.slice(PREFIX.length).split('/').filter(Boolean)[0]
      ?? 'default']. *)
Definition accountIdOfPath (prefix pathname : jsstring) : jsstring :=
  default (js "default")
    (head (List.filter nonEmpty (split 47 (drop (length prefix) pathname)))).

(** [String(err)] of the TypeError that reading the property [prop] of
    [null] raises, in the wording of V8, the engine of Node. *)
Definition nullReadError (prop : jsstring) : jsstring :=
  js "TypeError: Cannot read properties of null (reading '" ++ prop
     ++ js "')".

End Http.
Import Http.

Module WebhookHandler.
Import Api Webhook.

Definition WEBHOOK_PREFIX : jsstring := js "/webhooks/channel-talk".

Section Handler.

Variable toLowerCase : jsstring -> jsstring.
Variable parse : list Byte.byte -> option (Json ChannelTalkWebhookEvent).

(** [handleChannelTalkWebhook]; [webhookTargets] is the module-level map. *)
Definition handleChannelTalkWebhook
  (webhookTargets : gmap jsstring WebhookTarget)
  (pluginApi : option PluginApi) (now : N) (req : IncomingMessage)
  : Handled Outcome :=
  if negb (startsWith (req_pathname req) WEBHOOK_PREFIX) then notOurs
  else if negb (optIs (req_method req) (js "POST")) then
    respond 405 [(js "Allow", js "POST")] (js "Method Not Allowed") None
  else
    let accountId := accountIdOfPath WEBHOOK_PREFIX (req_pathname req) in
    match webhookTargets !! accountId with
    | None =>
        respond 404 []
          (js "No active Channel Talk account: " ++ accountId) None
    | Some target =>
        match readJsonBody parse req maxBodyBytes with
        | inr error =>
            respond (match error with payload_too_large => 413 | _ => 400 end)
                    [] (errorText error) None
        | inl data =>
            respond 200 [(js "Content-Type", js "application/json")]
              (js "{}")
              (Some match data with
                    | JsonNull =>
                        {| effects := [];
                           completion := Threw (nullReadError (js "type")) |}
                    | JsonValue event =>
                        processWebhookEvent toLowerCase pluginApi now
                                            event target
                    end)
        end
    end.

End Handler.

End WebhookHandler.

(* ================================================================== *)
(** ** src/function.ts                                                  *)
(* ================================================================== *)

Module FunctionEndpoint.
Import Api Webhook.

(** [FunctionTarget], without the [log] sink. *)
Record FunctionTarget := {
  ft_accountId : jsstring;
  ft_creds : ChannelTalkCredentials;
  ft_botName : option jsstring;
  ft_cfg : OpenClawConfig
}.

(** [params.chat] and [params.input], read through [params as any]. *)
Record NestedChat := {
  chat_id : option jsstring;
  chat_type : option jsstring
}.

Record NestedInput := {
  input_message : option jsstring
}.

Record Params := {
  p_chatId : option jsstring;
  p_chatType : option jsstring;
  p_value : option jsstring;
  p_language : option jsstring;
  p_chat : option NestedChat;
  p_input : option NestedInput
}.

Record Caller := {
  caller_type : option jsstring;
  caller_id : option jsstring
}.

Record Context := {
  ctx_channelId : option jsstring;
  ctx_caller : option Caller
}.

Record ChannelTalkFunctionRequest := {
  rq_method : option jsstring;
  params : option Params;
  context : option Context
}.

Definition emptyParams : Params :=
  {| p_chatId := None; p_chatType := None; p_value := None;
     p_language := None; p_chat := None; p_input := None |}.

Definition emptyContext : Context :=
  {| ctx_channelId := None; ctx_caller := None |}.

(** [ChannelTalkFunctionResponse]: [{ result: { type, value } }] or
    [{ result: { error } }]. *)
Inductive ChannelTalkFunctionResponse :=
| ResultValue (type value : option jsstring)
| ResultError (error : jsstring).

(** The Korean acknowledgement literal followed by three dots. *)
Definition processingText : jsstring :=
  [52376; 47532; 32; 51473; 51077; 45768; 45796; 46; 46; 46].

Definition processingAck : ChannelTalkFunctionResponse :=
  ResultValue (Some (js "text")) (Some processingText).

(** [o || lit] closing a chain of [||] with a string literal. *)
Definition orLit (o : option jsstring) (lit : jsstring) : jsstring :=
  if truthy o then default [] o else lit.

(** Lines 148-192 of [processFunctionRequest]: either one of the two
    error responses, or the synthesized webhook event. *)
Inductive Normalized :=
| Rejected (r : ChannelTalkFunctionResponse)
| Synthesized (event : ChannelTalkWebhookEvent).

Definition normalize (now : N) (request : ChannelTalkFunctionRequest)
  : Normalized :=
  let params := default emptyParams (params request) in
  let context := default emptyContext (context request) in
  let chatId := orElse (p_chat params ?. chat_id) (p_chatId params) in
  let chatType :=
    orLit (orElse (p_chat params ?. chat_type) (p_chatType params))
          (js "userChat") in
  let userInput :=
    trim (orLit (orElse (p_input params ?. input_message) (p_value params))
                []) in
  if negb (truthy chatId) then
    Rejected (ResultError (js "Missing chatId in params"))
  else if negb (nonEmpty userInput) then
    Rejected (ResultError (js "Missing user input"))
  else
    let callerId := default (js "unknown") (ctx_caller context ?. caller_id) in
    let callerType := default (js "user") (ctx_caller context ?. caller_type) in
    Synthesized
      {| ev_event := Some (js "push");
         ev_type := Some (js "Message");
         entity := Some
           {| e_id := Some (js "function-" ++ ofNumber now);
              e_chatId := chatId;
              e_chatType := Some chatType;
              e_personType := Some callerType;
              e_personId := Some callerId;
              e_plainText := Some userInput;
              e_blocks := None;
              e_createdAt := Some now |};
         refers := Some
           {| userChat := None;
              user := if strEq callerType (js "user")
                      then Some {| u_id := Some callerId;
                                   u_name := Some (js "User");
                                   u_profile := None |}
                      else None;
              manager := if strEq callerType (js "manager")
                         then Some {| m_id := Some callerId;
                                      m_name := Some (js "Manager");
                                      m_email := None |}
                         else None |} |}.

(** Lines 195-202: the webhook target built from the function target. *)
Definition webhookTargetOf (target : FunctionTarget) : WebhookTarget :=
  {| accountId := ft_accountId target;
     creds := ft_creds target;
     botName := ft_botName target;
     groupAllowFrom := None;
     triggerKeywords := [];
     cfg := ft_cfg target |}.

(** One run of [processFunctionRequest]: the value its promise resolves
    with, and the run of [processWebhookEvent] it starts without
    awaiting. *)
Record FunctionRun := {
  fr_result : ChannelTalkFunctionResponse + jsstring;
  fr_spawned : option Outcome
}.

Section Handler.

Variable toLowerCase : jsstring -> jsstring.
Variable parse : list Byte.byte -> option (Json ChannelTalkFunctionRequest).

(** [processFunctionRequest]; both readings of [Date.now()] are [now]. *)
Definition processFunctionRequest (pluginApi : option PluginApi) (now : N)
  (request : ChannelTalkFunctionRequest) (target : FunctionTarget)
  : FunctionRun :=
  match normalize now request with
  | Rejected r => {| fr_result := inl r; fr_spawned := None |}
  | Synthesized webhookEvent =>
      {| fr_result := inl processingAck;
         fr_spawned :=
           Some (processWebhookEvent toLowerCase pluginApi now
                                     webhookEvent (webhookTargetOf target)) |}
  end.

Definition FUNCTION_PREFIX : jsstring := js "/functions/channel-talk".

Definition quote (s : jsstring) : jsstring := 34 :: s ++ [34].

(** [JSON.stringify({ result: { error } })] for the three error texts,
    none of which needs escaping. *)
Definition errorBody (error : ReadError) : jsstring :=
  js "{" ++ quote (js "result") ++ js ":{" ++ quote (js "error") ++ js ":"
     ++ quote (errorText error) ++ js "}}".

(** [JSON.stringify({ result: { type: 'text', value: ... } })]. *)
Definition ackBody : jsstring :=
  js "{" ++ quote (js "result") ++ js ":{" ++ quote (js "type") ++ js ":"
     ++ quote (js "text") ++ js "," ++ quote (js "value") ++ js ":"
     ++ quote processingText ++ js "}}".

(** [handleChannelTalkFunction]; [functionTargets] is the module-level
    map. *)
Definition handleChannelTalkFunction
  (functionTargets : gmap jsstring FunctionTarget)
  (pluginApi : option PluginApi) (now : N) (req : IncomingMessage)
  : Handled FunctionRun :=
  if negb (startsWith (req_pathname req) FUNCTION_PREFIX) then notOurs
  else if negb (optIs (req_method req) (js "PUT")) then
    respond 405 [(js "Allow", js "PUT")] (js "Method Not Allowed") None
  else
    let accountId := accountIdOfPath FUNCTION_PREFIX (req_pathname req) in
    match functionTargets !! accountId with
    | None =>
        respond 404 []
          (js "No active Channel Talk account: " ++ accountId) None
    | Some target =>
        match readJsonBody parse req maxBodyBytes with
        | inr error =>
            respond (match error with payload_too_large => 413 | _ => 400 end)
                    [] (errorBody error) None
        | inl data =>
            respond 200 [(js "Content-Type", js "application/json")]
              ackBody
              (Some match data with
                    | JsonNull =>
                        {| fr_result := inr (nullReadError (js "params"));
                           fr_spawned := None |}
                    | JsonValue request =>
                        processFunctionRequest pluginApi now request target
                    end)
        end
    end.

End Handler.

End FunctionEndpoint.

(* ================================================================== *)
(** ** src/channel.ts: account resolution and the gateway lifecycle     *)
(* ================================================================== *)

Module Channel.
Import Api Webhook FunctionEndpoint.

Record ResolvedChannelTalkAccount := {
  ra_accountId : jsstring;
  ra_name : jsstring;
  ra_enabled : bool;
  ra_configured : bool;
  ra_creds : ChannelTalkCredentials;
  ra_botName : option jsstring;
  ra_config : ChannelTalkAccountConfig
}.

Definition resolveAccount (cfg : OpenClawConfig)
  (accountId : option jsstring) : ResolvedChannelTalkAccount :=
  let id := default (js "default") accountId in
  let raw := accountOf cfg id in
  let accessKey := default [] (cfg_accessKey raw) in
  let accessSecret := default [] (cfg_accessSecret raw) in
  {| ra_accountId := id;
     ra_name := default id (cfg_name raw);
     ra_enabled := match cfg_enabled raw with Some false => false | _ => true end;
     ra_configured := nonEmpty accessKey && nonEmpty accessSecret;
     ra_creds := {| accessKey := accessKey; accessSecret := accessSecret |};
     ra_botName := cfg_botName raw;
     ra_config := raw |}.

(** The two module-level maps of webhook.ts and function.ts. *)
Record Registries := {
  webhookTargets : gmap jsstring WebhookTarget;
  functionTargets : gmap jsstring FunctionTarget
}.

(** The webhook target [gateway.startAccount] registers (lines 262-274). *)
Definition webhookTargetFor (cfg : OpenClawConfig)
  (account : ResolvedChannelTalkAccount) : WebhookTarget :=
  {| accountId := ra_accountId account;
     creds := ra_creds account;
     botName := ra_botName account;
     groupAllowFrom := cfg_groupAllowFrom (ra_config account);
     triggerKeywords :=
       match cfg_triggerKeywords (ra_config account) with
       | Some kws => kws
       | None => if truthy (ra_botName account)
                 then [default [] (ra_botName account)] else []
       end;
     cfg := cfg |}.

Definition functionTargetFor (cfg : OpenClawConfig)
  (account : ResolvedChannelTalkAccount) : FunctionTarget :=
  {| ft_accountId := ra_accountId account;
     ft_creds := ra_creds account;
     ft_botName := ra_botName account;
     ft_cfg := cfg |}.

(** [gateway.startAccount] up to the point where it waits for the abort
    signal. *)
Definition startAccount (cfg : OpenClawConfig)
  (account : ResolvedChannelTalkAccount) (regs : Registries) : Registries :=
  if negb (ra_configured account) then regs
  else
    {| webhookTargets :=
         <[ra_accountId account := webhookTargetFor cfg account]>
           (webhookTargets regs);
       functionTargets :=
         <[ra_accountId account := functionTargetFor cfg account]>
           (functionTargets regs) |}.

(** The abort listener. *)
Definition stopAccount (account : ResolvedChannelTalkAccount)
  (regs : Registries) : Registries :=
  {| webhookTargets := delete (ra_accountId account) (webhookTargets regs);
     functionTargets := delete (ra_accountId account) (functionTargets regs) |}.

End Channel.

(* ================================================================== *)
(** ** Concrete data for worked runs                                    *)
(* ================================================================== *)

Module Sample.
Import Api Webhook FunctionEndpoint Channel.

(** Lower-casing of the ASCII letters; every other unit is kept. *)
Definition asciiLower (s : jsstring) : jsstring :=
  map (fun c => if (65 <=? c) && (c <=? 90) then c + 32 else c) s.

Definition sampleCreds : ChannelTalkCredentials :=
  {| accessKey := js "key"; accessSecret := js "secret" |}.

Definition accountWith (policy : option DmPolicy)
  (allow : option (list jsstring)) : ChannelTalkAccountConfig :=
  {| cfg_enabled := None; cfg_name := None;
     cfg_accessKey := Some (js "key"); cfg_accessSecret := Some (js "secret");
     cfg_botName := None; cfg_dmPolicy := policy; cfg_allowFrom := allow;
     cfg_groupAllowFrom := None; cfg_triggerKeywords := None;
     cfg_mediaMaxMb := None |}.

Definition configWith (policy : option DmPolicy)
  (allow : option (list jsstring)) : OpenClawConfig :=
  {| channels :=
       Some {[ channelName :=
                 {| accounts :=
                      Some {[ js "default" := accountWith policy allow ]} |} ]} |}.

(** A host whose store lists [store], whose upsert answers with the code
    ABC123 and [isNew], whose pairing template carries the placeholder,
    and whose agent answers every message with one reply. *)
Definition sampleRuntime (store : list jsstring) (isNew : bool) : Runtime :=
  {| readAllowFromStore := fun _ => store;
     upsertPairingRequest := fun _ _ _ =>
       {| code := js "ABC123"; created := isNew |};
     buildPairingReply := fun channel idLine code =>
       idLine ++ [10] ++ js "Pairing code: " ++ code ++ [10]
         ++ js "openclaw pairing approve " ++ channel ++ js " "
         ++ codePlaceholder;
     resolveAgentRoute := fun channel account kind peer =>
       channel ++ js ":" ++ account ++ js ":" ++ peer;
     replyPayloads := fun _ =>
       [{| text := Some (js " ok "); mediaUrl := None |}] |}.

Definition sampleApi (policy : option DmPolicy)
  (allow store : list jsstring) (isNew : bool) : PluginApi :=
  {| config := configWith policy (Some allow);
     runtime := sampleRuntime store isNew |}.

Definition sampleTarget (keywords : list jsstring) : WebhookTarget :=
  {| accountId := js "default"; creds := sampleCreds; botName := None;
     groupAllowFrom := None; triggerKeywords := keywords;
     cfg := configWith None None |}.

Definition messageOf (chatId chatType personType personId plainText
  : option jsstring) : Entity :=
  {| e_id := Some (js "m1"); e_chatId := chatId; e_chatType := chatType;
     e_personType := personType; e_personId := personId;
     e_plainText := plainText; e_blocks := None; e_createdAt := Some 1000 |}.

Definition pushOf (message : Entity) : ChannelTalkWebhookEvent :=
  {| ev_event := Some (js "push"); ev_type := Some (js "Message");
     entity := Some message; refers := None |}.

(** A customer message in a direct chat. *)
Definition directHello : ChannelTalkWebhookEvent :=
  pushOf (messageOf (Some (js "C1")) (Some (js "userChat"))
                    (Some (js "user")) (Some (js "U1")) (Some (js "hello"))).

(** The same kind of message without any chat id. *)
Definition helloWithoutChat : ChannelTalkWebhookEvent :=
  pushOf (messageOf None (Some (js "userChat"))
                    (Some (js "user")) (Some (js "U1")) (Some (js "hello"))).

(** A message written by the bot itself. *)
Definition botEcho : ChannelTalkWebhookEvent :=
  pushOf (messageOf (Some (js "C1")) (Some (js "userChat"))
                    (Some (js "bot")) (Some (js "B1")) (Some (js "hello"))).

(** A group message of a manager, with the manager record attached but
    without any author id. *)
Definition anonymousManager : ChannelTalkWebhookEvent :=
  {| ev_event := Some (js "push"); ev_type := Some (js "Message");
     entity := Some (messageOf (Some (js "G1")) (Some (js "group"))
                               (Some (js "manager")) None
                               (Some (js "Hello AI")));
     refers := Some {| userChat := None; user := None;
                       manager := Some {| m_id := None;
                                          m_name := Some (js "Alice");
                                          m_email := None |} |} |}.

(** A command invocation with the given nested and flat chat ids, the
    given nested and flat texts, and the given caller kind. *)
Definition requestWith (nestedChatId flatChatId nestedMessage flatValue
  callerType : option jsstring) : ChannelTalkFunctionRequest :=
  {| rq_method := Some (js "ask");
     params := Some
       {| p_chatId := flatChatId; p_chatType := None; p_value := flatValue;
          p_language := None;
          p_chat := Some {| chat_id := nestedChatId; chat_type := None |};
          p_input := Some {| input_message := nestedMessage |} |};
     context := Some
       {| ctx_channelId := Some (js "ch1");
          ctx_caller := Some {| caller_type := callerType;
                                caller_id := Some (js "P1") |} |} |}.

Definition sampleFunctionTarget : FunctionTarget :=
  {| ft_accountId := js "default"; ft_creds := sampleCreds;
     ft_botName := None; ft_cfg := configWith None None |}.

(** Two bodies: an empty JSON object, and a lone opening brace. *)
Definition emptyObjectBody : list Byte.byte := [Byte.x7b; Byte.x7d].
Definition brokenBody : list Byte.byte := [Byte.x7b].

Definition isEmptyObject (raw : list Byte.byte) : bool :=
  match raw with
  | [a; b] => Byte.eqb a Byte.x7b && Byte.eqb b Byte.x7d
  | _ => false
  end.

(** [JSON.parse] cut down to the bodies above: the empty object parses
    to a value without any property, everything else is a syntax error. *)
Definition parseEvent (raw : list Byte.byte)
  : option (Json ChannelTalkWebhookEvent) :=
  if isEmptyObject raw
  then Some (JsonValue {| ev_event := None; ev_type := None;
                          entity := None; refers := None |})
  else None.

Definition parseRequest (raw : list Byte.byte)
  : option (Json ChannelTalkFunctionRequest) :=
  if isEmptyObject raw
  then Some (JsonValue {| rq_method := None; params := None;
                          context := None |})
  else None.

Definition requestOf (method path : jsstring) (raw : list Byte.byte)
  : IncomingMessage :=
  {| req_method := Some method; req_pathname := path;
     req_chunks := [raw]; req_close := StreamEnd |}.

Definition webhookPath : jsstring := js "/webhooks/channel-talk/default".
Definition functionPath : jsstring := js "/functions/channel-talk/default".

Definition sampleWebhookTargets : gmap jsstring WebhookTarget :=
  {[ js "default" := sampleTarget [] ]}.

Definition sampleFunctionTargets : gmap jsstring FunctionTarget :=
  {[ js "default" := sampleFunctionTarget ]}.

End Sample.

(* ================================================================== *)
(** ** Predicates used in the statements                                *)
(* ================================================================== *)

Module Statements.
Import Api Webhook FunctionEndpoint.

(** No line of [text] is a code fence for [markdownToBlocks]. *)
Definition fenceFree (text : jsstring) : bool :=
  forallb (fun line => match fenceMatch line with
                       | Some _ => false
                       | None => true
                       end) (split 10 text).

(** The same target with another [groupAllowFrom]. *)
Definition withGroupAllowFrom (g : option (list jsstring))
  (target : WebhookTarget) : WebhookTarget :=
  {| accountId := accountId target; creds := creds target;
     botName := botName target; groupAllowFrom := g;
     triggerKeywords := triggerKeywords target; cfg := cfg target |}.

(** The same target with other trigger keywords. *)
Definition withTriggerKeywords (kws : list jsstring)
  (target : WebhookTarget) : WebhookTarget :=
  {| accountId := accountId target; creds := creds target;
     botName := botName target; groupAllowFrom := groupAllowFrom target;
     triggerKeywords := kws; cfg := cfg target |}.

(** The chat id [processWebhookEvent] resolves at line 152. *)
Definition resolvedChatId (event : ChannelTalkWebhookEvent)
  (message : Entity) : option jsstring :=
  e_chatId message ?? (refers event ?. userChat ?. uc_id).

(** "Whichever is present and non-empty wins", the nested field first. *)
Definition firstNonEmpty (nested flat : option jsstring)
  : option jsstring :=
  match nested with
  | Some (c :: s) => Some (c :: s)
  | _ => match flat with
         | Some (c :: s) => Some (c :: s)
         | _ => None
         end
  end.

Definition nestedChatId (rq : ChannelTalkFunctionRequest) : option jsstring :=
  params rq ?. p_chat ?. chat_id.

Definition flatChatId (rq : ChannelTalkFunctionRequest) : option jsstring :=
  params rq ?. p_chatId.

Definition nestedMessage (rq : ChannelTalkFunctionRequest) : option jsstring :=
  params rq ?. p_input ?. input_message.

Definition flatValue (rq : ChannelTalkFunctionRequest) : option jsstring :=
  params rq ?. p_value.

(** The caller kind and id [normalize] works with. *)
Definition callerTypeOf (rq : ChannelTalkFunctionRequest) : jsstring :=
  default (js "user") (context rq ?. ctx_caller ?. caller_type).

Definition callerIdOf (rq : ChannelTalkFunctionRequest) : jsstring :=
  default (js "unknown") (context rq ?. ctx_caller ?. caller_id).

(** The policy in force for a target: [account.dmPolicy ?? 'pairing']. *)
Definition policyOf (api : PluginApi) (target : WebhookTarget) : DmPolicy :=
  default PolicyPairing
    (cfg_dmPolicy (accountOf (config api) (accountId target))).

(** [combinedAllowFrom] of line 203. *)
Definition combinedAllowFrom (api : PluginApi) (target : WebhookTarget)
  : list jsstring :=
  default [] (cfg_allowFrom (accountOf (config api) (accountId target)))
    ++ readAllowFromStore (runtime api) channelName.

(** The bytes [readJsonBody] hands to the parser, when the body stays
    within the size cap. *)
Definition bodyOf (req : IncomingMessage) : option (list Byte.byte) :=
  readChunks maxBodyBytes 0 (req_chunks req) [].

(** The request passes the prefix, method and account checks of the
    webhook handler and is served for [target]. *)
Definition webhookRouted (targets : gmap jsstring WebhookTarget)
  (req : IncomingMessage) (target : WebhookTarget) : Prop :=
  startsWith (req_pathname req) WebhookHandler.WEBHOOK_PREFIX = true
  /\ req_method req = Some (js "POST")
  /\ targets !! accountIdOfPath WebhookHandler.WEBHOOK_PREFIX
                                (req_pathname req) = Some target.

(** The same for the function handler. *)
Definition functionRouted (targets : gmap jsstring FunctionTarget)
  (req : IncomingMessage) (target : FunctionTarget) : Prop :=
  startsWith (req_pathname req) FUNCTION_PREFIX = true
  /\ req_method req = Some (js "PUT")
  /\ targets !! accountIdOfPath FUNCTION_PREFIX (req_pathname req)
     = Some target.

(** The pipeline was invoked in a trace. *)
Definition invokesPipeline (es : list Effect) : bool :=
  existsb (fun e => match e with DispatchReply _ => true | _ => false end) es.

(** The calls of [sendMessage] in a trace. *)
Definition sendsOf (es : list Effect) : list SendCall :=
  flat_map (fun e => match e with SendMessage c => [c] | _ => [] end) es.

(** The pairing upserts in a trace, by sender id. *)
Definition upsertsOf (es : list Effect) : list jsstring :=
  flat_map (fun e => match e with
                     | UpsertPairingRequest _ id _ => [id]
                     | _ => []
                     end) es.

End Statements.

(* ================================================================== *)
(** ** The target registries (webhook.ts, function.ts)                  *)
(* ================================================================== *)

Module Registry.
Import Webhook FunctionEndpoint.

(** [webhookTargets.set(accountId, target)]. *)
Definition registerWebhookTarget (accountId : jsstring)
  (target : WebhookTarget) (targets : gmap jsstring WebhookTarget)
  : gmap jsstring WebhookTarget :=
  <[accountId := target]> targets.

(** [webhookTargets.delete(accountId)]. *)
Definition unregisterWebhookTarget (accountId : jsstring)
  (targets : gmap jsstring WebhookTarget) : gmap jsstring WebhookTarget :=
  delete accountId targets.

Definition registerFunctionTarget (accountId : jsstring)
  (target : FunctionTarget) (targets : gmap jsstring FunctionTarget)
  : gmap jsstring FunctionTarget :=
  <[accountId := target]> targets.

Definition unregisterFunctionTarget (accountId : jsstring)
  (targets : gmap jsstring FunctionTarget) : gmap jsstring FunctionTarget :=
  delete accountId targets.

End Registry.

(* ================================================================== *)
(** ** src/channel.ts: the adapters of the plugin object                *)
(* ================================================================== *)

Module Adapters.
Import Api Webhook FunctionEndpoint Channel.

(** [getChannelSection] and [getAccountsMap]. *)
Definition getChannelSection (cfg : OpenClawConfig) : option ChannelSection :=
  Some cfg ?. channels ?. (fun ch => ch !! channelName).

Definition getAccountsMap (cfg : OpenClawConfig)
  : gmap jsstring ChannelTalkAccountConfig :=
  default ∅ (getChannelSection cfg ?. accounts).

(** [{ ...raw, enabled }]. *)
Definition withEnabled (raw : ChannelTalkAccountConfig) (enabled : bool)
  : ChannelTalkAccountConfig :=
  {| cfg_enabled := Some enabled; cfg_name := cfg_name raw;
     cfg_accessKey := cfg_accessKey raw;
     cfg_accessSecret := cfg_accessSecret raw;
     cfg_botName := cfg_botName raw; cfg_dmPolicy := cfg_dmPolicy raw;
     cfg_allowFrom := cfg_allowFrom raw;
     cfg_groupAllowFrom := cfg_groupAllowFrom raw;
     cfg_triggerKeywords := cfg_triggerKeywords raw;
     cfg_mediaMaxMb := cfg_mediaMaxMb raw |}.

(** The configuration with the accounts map replaced:
    [{ ...cfg, channels: { ...cfg.channels,
       'channel-talk': { ...getChannelSection(cfg), accounts } } }]. *)
Definition putAccounts (cfg : OpenClawConfig)
  (accs : gmap jsstring ChannelTalkAccountConfig) : OpenClawConfig :=
  {| channels :=
       Some (<[channelName := {| accounts := Some accs |}]>
               (default ∅ (channels cfg))) |}.

(** [config.setAccountEnabled]. *)
Definition setAccountEnabled (cfg : OpenClawConfig)
  (accountId : option jsstring) (enabled : bool) : OpenClawConfig :=
  let id := default (js "default") accountId in
  putAccounts cfg
    (<[id := withEnabled (default emptyAccount (getAccountsMap cfg !! id))
                         enabled]> (getAccountsMap cfg)).

(** [config.deleteAccount]. *)
Definition deleteAccount (cfg : OpenClawConfig)
  (accountId : option jsstring) : OpenClawConfig :=
  let id := default (js "default") accountId in
  putAccounts cfg (delete id (getAccountsMap cfg)).

(** [config.resolveAllowFrom]; the entries are strings already. *)
Definition resolveAllowFrom (cfg : OpenClawConfig)
  (accountId : option jsstring) : list jsstring :=
  default [] (cfg_allowFrom (ra_config (resolveAccount cfg accountId))).

(** [config.formatAllowFrom]:
    [allowFrom.map((e) => String(e).trim()).filter(Boolean)]. *)
Definition formatAllowFrom (allowFrom : list jsstring) : list jsstring :=
  List.filter nonEmpty (map trim allowFrom).

(** What [security.resolveDmPolicy] reports to the host. *)
Record DmPolicyReport := {
  policy : DmPolicy;
  allowFrom : list jsstring;
  policyPath : jsstring;
  allowFromPath : jsstring;
  approveHint : jsstring
}.

Definition resolveDmPolicy (account : ResolvedChannelTalkAccount)
  (accountId : option jsstring) : DmPolicyReport :=
  let id := default (ra_accountId account) accountId in
  let basePath := js "channels.channel-talk.accounts." ++ id ++ js "." in
  {| policy := default PolicyPairing (cfg_dmPolicy (ra_config account));
     allowFrom := default [] (cfg_allowFrom (ra_config account));
     policyPath := basePath ++ js "dmPolicy";
     allowFromPath := basePath ++ js "allowFrom";
     approveHint := js "openclaw pairing approve channel-talk <code>" |}.

(** Case-insensitive comparison of one unit against an ASCII pattern
    unit, as the [i] flag without the [u] flag does it: only the ASCII
    letters fold. *)
Definition foldUnit (c : N) : N :=
  if (97 <=? c) && (c <=? 122) then c - 32 else c.

Fixpoint startsWithCI (s p : jsstring) {struct p} : bool :=
  match p, s with
  | [], _ => true
  | _ :: _, [] => false
  | a :: p', b :: s' => (foldUnit a =? foldUnit b) && startsWithCI s' p'
  end.

Definition channelPrefix : jsstring := js "channel-talk:".

(** [raw.replace(/^channel-talk:/i, '')]. *)
Definition stripChannelPrefix (raw : jsstring) : jsstring :=
  if startsWithCI raw channelPrefix
  then drop (length channelPrefix) raw else raw.

(** [messaging.normalizeTarget]. *)
Definition normalizeTarget (raw : jsstring) : option jsstring :=
  let cleaned := trim (stripChannelPrefix raw) in
  if nonEmpty cleaned then Some cleaned else None.

Definition isDigit (c : N) : bool := (48 <=? c) && (c <=? 57).

(** One or more decimal digits, and nothing else. *)
Definition isDigits (s : jsstring) : bool :=
  nonEmpty s && forallb isDigit s.

(** The class of group names: word characters, the Hangul syllables,
    underscore and hyphen. *)
Definition isNameChar (c : N) : bool :=
  isWordChar c || ((44032 <=? c) && (c <=? 55203)) || (c =? 95) || (c =? 45).

Definition groupPrefix : jsstring := js "group:".

(** [messaging.targetResolver.looksLikeId]. *)
Definition looksLikeId (raw : jsstring) : bool :=
  let cleaned := trim (stripChannelPrefix raw) in
  if isDigits cleaned then true
  else if startsWith cleaned groupPrefix
          && isDigits (drop (length groupPrefix) cleaned) then true
  else match cleaned with
       | c :: rest => (c =? 64) && nonEmpty rest && forallb isNameChar rest
       | [] => false
       end.

(** What an outbound adapter call does: refuse, or call [sendMessage]. *)
Inductive Outbound :=
| NotConfigured (error : jsstring)
| Sends (call : SendCall).

(** The target parsing shared by [sendText] and [sendMedia]. *)
Definition outboundCall (account : ResolvedChannelTalkAccount)
  (to text : jsstring) : SendCall :=
  let raw := stripChannelPrefix to in
  let isGroup := startsWith raw groupPrefix || startsWith raw [64] in
  let chatId := if startsWith raw groupPrefix
                then drop (length groupPrefix) raw else raw in
  {| send_creds := ra_creds account;
     send_chatId := chatId;
     send_text := text;
     send_botName := ra_botName account;
     send_chatType := if isGroup then SendGroup else SendUserChat |}.

Definition notConfiguredError : jsstring :=
  js "Channel Talk account not configured".

(** [outbound.sendText]. *)
Definition sendText (cfg : OpenClawConfig) (to text : jsstring)
  (accountId : option jsstring) : Outbound :=
  let account := resolveAccount cfg accountId in
  if negb (ra_configured account) then NotConfigured notConfiguredError
  else Sends (outboundCall account to text).

(** [outbound.sendMedia]: the text, or a placeholder for an empty one. *)
Definition sendMedia (cfg : OpenClawConfig) (to text : jsstring)
  (accountId : option jsstring) : Outbound :=
  let account := resolveAccount cfg accountId in
  if negb (ra_configured account) then NotConfigured notConfiguredError
  else Sends (outboundCall account to
                (if nonEmpty text then text else js "(media)")).

End Adapters.

(* ================================================================== *)
(** ** Further predicates and data for the statements                   *)
(* ================================================================== *)

Module Statements2.
Import Api Webhook FunctionEndpoint Channel.

(** The pipeline invocations in a trace, by context. *)
Definition dispatchesOf (es : list Effect) : list InboundContext :=
  flat_map (fun e => match e with DispatchReply c => [c] | _ => [] end) es.

(** A string [trim] leaves alone. *)
Definition trimmed (s : jsstring) : Prop := trim s = s.

(** The number of bytes of a request body. *)
Definition totalBytes (chunks : list (list Byte.byte)) : N :=
  N.of_nat (length (concat chunks)).

(** A line-level view of [markdownToBlocks]: the blocks for the lines of
    a text. *)
Definition blocksOfLines (lines : list jsstring) : list MessageBlock :=
  let st := fold_left mdStep lines mdInit in
  let st := if inCode st then flushCode st else st in
  blocks (flushText st).

(** An opening or closing fence line with the given language tag. *)
Definition fenceLine (lang : jsstring) : jsstring := js "```" ++ lang.

(** No line break inside a line. *)
Definition singleLine (line : jsstring) : bool :=
  forallb (fun c => negb (c =? 10)) line.

(** A text block of the result that is not the fallback for an input
    without any block. *)
Definition textValues (bs : list MessageBlock) : list jsstring :=
  flat_map (fun b => match b with TextBlock v => [v] | _ => [] end) bs.

(** The text block a run of plain lines becomes. *)
Definition textBlockOf (lines : list jsstring) : list MessageBlock :=
  match lines with
  | [] => []
  | _ :: _ =>
      if nonEmpty (trim (join nl lines))
      then [TextBlock (trim (join nl lines))] else []
  end.

(** The code block a run of lines between fences becomes. *)
Definition codeBlockOf (lang : jsstring) (lines : list jsstring)
  : list MessageBlock :=
  match lines with
  | [] => []
  | _ :: _ =>
      [CodeBlock (join nl lines) (if nonEmpty lang then Some lang else None)]
  end.

(** Every text block made by a flush is non-empty and trimmed. *)
Definition goodTexts (bs : list MessageBlock) : Prop :=
  Forall (fun v => v <> [] /\ trimmed v) (textValues bs).

(** A message that carries only the blocks [markdownToBlocks] makes
    from a text. *)
Definition blocksOnly (t : jsstring) : Entity :=
  {| e_id := None; e_chatId := None; e_chatType := None;
     e_personType := None; e_personId := None; e_plainText := None;
     e_blocks := Some (map toWire (markdownToBlocks t));
     e_createdAt := None |}.

(** The chat type [normalize] puts into the event. *)
Definition chatTypeOf (rq : ChannelTalkFunctionRequest) : jsstring :=
  orLit (orElse (params rq ?. p_chat ?. chat_type) (params rq ?. p_chatType))
        (js "userChat").

(** The first name that is present, in the order given. *)
Fixpoint firstPresent (names : list (option jsstring)) : option jsstring :=
  match names with
  | [] => None
  | Some n :: _ => Some n
  | None :: rest => firstPresent rest
  end.

(** An account with a bot name and no configured trigger keywords. *)
Definition clawConfig : OpenClawConfig :=
  {| channels :=
       Some {[ channelName :=
                 {| accounts :=
                      Some {[ js "default" :=
                                {| cfg_enabled := None; cfg_name := None;
                                   cfg_accessKey := Some (js "key");
                                   cfg_accessSecret := Some (js "secret");
                                   cfg_botName := Some (js "Claw");
                                   cfg_dmPolicy := Some PolicyOpen;
                                   cfg_allowFrom := None;
                                   cfg_groupAllowFrom := None;
                                   cfg_triggerKeywords := None;
                                   cfg_mediaMaxMb := None |} ]} |} ]} |}.

Definition clawAccount : ResolvedChannelTalkAccount :=
  resolveAccount clawConfig None.

Definition noRegistrations : Registries :=
  {| webhookTargets := ∅; functionTargets := ∅ |}.

(** A group message that mentions the bot by name. *)
Definition groupMention : ChannelTalkWebhookEvent :=
  {| ev_event := Some (js "push"); ev_type := Some (js "Message");
     entity := Some
       {| e_id := Some (js "m3"); e_chatId := Some (js "G1");
          e_chatType := Some (js "group");
          e_personType := Some (js "manager"); e_personId := Some (js "M1");
          e_plainText := Some (js "hey CLAW, status?");
          e_blocks := None; e_createdAt := None |};
     refers := None |}.

(** None of the lines is a fence line. *)
Definition plainLines (lines : list jsstring) : bool :=
  forallb (fun line => match fenceMatch line with
                       | Some _ => false
                       | None => true
                       end) lines.

(** None of the lines holds a line break. *)
Definition singleLines (lines : list jsstring) : bool :=
  forallb singleLine lines.

(** A message whose [plainText] is blank while its blocks carry text. *)
Definition blankWithBlocks : ChannelTalkWebhookEvent :=
  {| ev_event := Some (js "push"); ev_type := Some (js "Message");
     entity := Some
       {| e_id := Some (js "m2"); e_chatId := Some (js "C1");
          e_chatType := Some (js "userChat");
          e_personType := Some (js "user"); e_personId := Some (js "U1");
          e_plainText := Some (js "  ");
          e_blocks := Some [toWire (TextBlock (js "hi"))];
          e_createdAt := None |};
     refers := None |}.

End Statements2.

Module Statements3.
Import Api Webhook WebhookHandler FunctionEndpoint Channel.
Import Statements Statements2 Sample.

(** The body of the request arrived completely and within the size cap,
    as the bytes [raw]. *)
Definition received (req : IncomingMessage) (raw : list Byte.byte) : Prop :=
  req_close req = StreamEnd /\ bodyOf req = Some raw.

(** The chat id of an event: the one line 152 resolves for its entity,
    none for an event without entity. *)
Definition eventChatId (event : ChannelTalkWebhookEvent) : option jsstring :=
  entity event ?. (fun message => resolvedChatId event message).

(** The headers of an acknowledgement. *)
Definition jsonHeaders : list (jsstring * jsstring) :=
  [(js "Content-Type", js "application/json")].

(** The property names of [Object.prototype]: what a property read finds
    on every plain object, whether or not the object has the key. *)
Definition inheritedKeys : list jsstring :=
  [js "constructor"; js "__defineGetter__"; js "__defineSetter__";
   js "hasOwnProperty"; js "__lookupGetter__"; js "__lookupSetter__";
   js "isPrototypeOf"; js "propertyIsEnumerable"; js "toString";
   js "valueOf"; js "__proto__"; js "toLocaleString"].

Definition inheritedKey (key : jsstring) : bool :=
  arrIncludes inheritedKeys key.

(** A path segment: not empty and without a slash. *)
Definition segment (s : jsstring) : Prop :=
  s <> [] /\ forallb (fun c => negb (c =? 47)) s = true.

(** The pathname of a request for the account written [name] in the
    path. *)
Definition webhookPathOf (name : jsstring) : jsstring :=
  WEBHOOK_PREFIX ++ [47] ++ name.

Definition bytesOf (s : string) : list Byte.byte :=
  String.list_byte_of_string s.

Definition quoted (s : string) : list Byte.byte :=
  Byte.x22 :: bytesOf s ++ [Byte.x22].

(** The property [key: value] of a JSON text, the value a string. *)
Definition member (key value : string) : list Byte.byte :=
  quoted key ++ bytesOf ":" ++ quoted value.

Definition nullBody : list Byte.byte := bytesOf "null".

(** The JSON text of [directHello]. *)
Definition helloBody : list Byte.byte :=
  bytesOf "{" ++ member "event" "push" ++ bytesOf ","
    ++ member "type" "Message" ++ bytesOf ","
    ++ quoted "entity" ++ bytesOf ":{"
    ++ member "id" "m1" ++ bytesOf ","
    ++ member "chatId" "C1" ++ bytesOf ","
    ++ member "chatType" "userChat" ++ bytesOf ","
    ++ member "personType" "user" ++ bytesOf ","
    ++ member "personId" "U1" ++ bytesOf ","
    ++ member "plainText" "hello" ++ bytesOf ","
    ++ quoted "createdAt" ++ bytesOf ":1000}}".

Fixpoint sameBytes (a b : list Byte.byte) : bool :=
  match a, b with
  | [], [] => true
  | x :: a, y :: b => Byte.eqb x y && sameBytes a b
  | _, _ => false
  end.

(** [JSON.parse] cut down to four bodies: [null], the text of
    [directHello], the empty object, and anything else as a syntax
    error. *)
Definition parseSampleEvent (raw : list Byte.byte)
  : option (Json ChannelTalkWebhookEvent) :=
  if sameBytes raw nullBody then Some JsonNull
  else if sameBytes raw helloBody then Some (JsonValue directHello)
  else parseEvent raw.

Definition parseSampleRequest (raw : list Byte.byte)
  : option (Json ChannelTalkFunctionRequest) :=
  if sameBytes raw nullBody then Some JsonNull else parseRequest raw.

(** A host with the open policy whose agent answers every message. *)
Definition openApi : PluginApi := sampleApi (Some PolicyOpen) [] [] true.

(** An account whose id holds a space, and the way the URL parser
    writes that id in a pathname. *)
Definition spacedId : jsstring := js "my bot".
Definition spacedIdEncoded : jsstring := js "my%20bot".

Definition spacedConfig : OpenClawConfig :=
  {| channels :=
       Some {[ channelName :=
                 {| accounts :=
                      Some {[ spacedId := accountWith None None ]} |} ]} |}.

Definition spacedAccount : ResolvedChannelTalkAccount :=
  resolveAccount spacedConfig (Some spacedId).

End Statements3.

(* ================================================================== *)
(** * Properties                                                        *)
(* ================================================================== *)

(** ** Facts about the string built-ins *)

Module JsFacts.

Lemma strEq_true (a b : jsstring) : strEq a b = true <-> a = b.
Proof. unfold strEq. apply bool_decide_eq_true. Qed.

Lemma strEq_false (a b : jsstring) : strEq a b = false <-> a <> b.
Proof. unfold strEq. apply bool_decide_eq_false. Qed.

Lemma strEq_refl (a : jsstring) : strEq a a = true.
Proof. now apply strEq_true. Qed.

Lemma arrIncludes_elem (l : list jsstring) (x : jsstring) :
  arrIncludes l x = true <-> In x l.
Proof.
  unfold arrIncludes. rewrite existsb_exists. split.
  - intros (y & Hy & Heq). apply strEq_true in Heq. now subst.
  - intros Hin. exists x. split; [assumption | apply strEq_refl].
Qed.

Lemma arrIncludes_app (l1 l2 : list jsstring) (x : jsstring) :
  arrIncludes (l1 ++ l2) x = arrIncludes l1 x || arrIncludes l2 x.
Proof. unfold arrIncludes. apply existsb_app. Qed.

Lemma startsWith_prefix (s p : jsstring) :
  startsWith s p = true <-> exists post, s = p ++ post.
Proof.
  revert s. induction p as [|a p IH]; intros s.
  - split; [intros _; now exists s | reflexivity].
  - destruct s as [|b s]; simpl.
    + split; [discriminate | intros (post & H); discriminate].
    + rewrite andb_true_iff, N.eqb_eq, IH. split.
      * intros (-> & post & ->). now exists post.
      * intros (post & H). injection H as -> ->. split; [reflexivity | now exists post].
Qed.

(** [includes] is the substring relation. *)
Lemma includes_substring (s p : jsstring) :
  includes s p = true <-> exists pre post, s = pre ++ p ++ post.
Proof.
  induction s as [|c s IH].
  - simpl. rewrite orb_false_r, startsWith_prefix. split.
    + intros (post & H). now exists [], post.
    + intros (pre & post & H). destruct pre; [now exists post | discriminate].
  - cbn [includes]. rewrite orb_true_iff, startsWith_prefix, IH. split.
    + intros [(post & H) | (pre & post & H)].
      * now exists [], post.
      * exists (c :: pre), post. now rewrite H.
    + intros (pre & post & H). destruct pre as [|d pre].
      * left. now exists post.
      * right. injection H as -> ->. now exists pre, post.
Qed.

Lemma includes_empty (s : jsstring) : includes s [] = true.
Proof. apply includes_substring. now exists [], s. Qed.

Lemma split_cons (sep : N) (s : jsstring) :
  exists l ls, split sep s = l :: ls.
Proof.
  induction s as [|c s (l & ls & IH)]; simpl.
  - now exists [], [].
  - destruct (c =? sep).
    + now exists [], (split sep s).
    + rewrite IH. now exists (c :: l), ls.
Qed.

Lemma join_cons_cons (sep x y : jsstring) (rest : list jsstring) :
  join sep (x :: y :: rest) = x ++ sep ++ join sep (y :: rest).
Proof. reflexivity. Qed.

Lemma join_head_cons (sep : jsstring) (c : N) (l : jsstring)
  (ls : list jsstring) :
  join sep ((c :: l) :: ls) = c :: join sep (l :: ls).
Proof. destruct ls; reflexivity. Qed.

(** Splitting at a separator and joining with it gives the string back. *)
Lemma join_split (sep : N) (s : jsstring) : join [sep] (split sep s) = s.
Proof.
  induction s as [|c s IH]; [reflexivity|].
  simpl. destruct (N.eqb_spec c sep) as [->|Hne].
  - destruct (split_cons sep s) as (l & ls & E).
    rewrite E in *. rewrite join_cons_cons, IH. reflexivity.
  - destruct (split_cons sep s) as (l & ls & E).
    rewrite E in *. now rewrite join_head_cons, IH.
Qed.







(** Text without an opening angle bracket has no tag to strip. *)
Lemma stripTags_plain (s : jsstring) :
  Forall (fun c => c <> 60) s -> stripTags s = s.
Proof.
  unfold stripTags. induction 1 as [|c s Hc _ IH]; [reflexivity|].
  cbn [stripFrom]. apply N.eqb_neq in Hc. now rewrite Hc, IH.
Qed.


Lemma truthy_Some (o : option jsstring) :
  truthy o = true -> exists c s, o = Some (c :: s).
Proof. destruct o as [[|c s]|]; try discriminate. now exists c, s. Qed.

End JsFacts.

(** ** Markdown and block conversion (api.ts) *)

Module ApiProps.
Import Api JsFacts Statements.

Lemma fenceFree_lines (text : jsstring) :
  fenceFree text = true ->
  Forall (fun line => fenceMatch line = None) (split 10 text).
Proof.
  unfold fenceFree. rewrite forallb_forall, List.Forall_forall.
  intros H line Hin. specialize (H line Hin).
  now destruct (fenceMatch line).
Qed.

(** Outside a fence, lines without a fence marker pile up in [textLines]
    and nothing else changes. *)
Lemma fold_mdStep_text (lines : list jsstring) (st : MdState) :
  Forall (fun line => fenceMatch line = None) lines ->
  inCode st = false ->
  fold_left mdStep lines st =
  {| blocks := blocks st; inCode := false; codeLang := codeLang st;
     codeLines := codeLines st; textLines := textLines st ++ lines |}.
Proof.
  intros Hlines. revert st.
  induction Hlines as [|line lines Hline _ IH]; intros st Hst.
  - destruct st; simpl in *. subst. now rewrite app_nil_r.
  - cbn [fold_left]. rewrite IH.
    + unfold mdStep. rewrite Hline, Hst. cbn.
      now rewrite <- app_assoc.
    + unfold mdStep. now rewrite Hline, Hst.
Qed.

(** The block list of a fence-free text, before the fallback. *)
Lemma markdownToBlocks_plain (text : jsstring) :
  fenceFree text = true ->
  markdownToBlocks text =
  [TextBlock (if nonEmpty (trim text) then trim text else text)].
Proof.
  intros Hfree. apply fenceFree_lines in Hfree.
  unfold markdownToBlocks.
  rewrite (fold_mdStep_text _ mdInit Hfree eq_refl). cbn.
  destruct (split_cons 10 text) as (l & ls & E).
  unfold flushText. cbn [textLines]. rewrite E, <- E.
  change nl with [10]. rewrite join_split. cbn.
  now destruct (nonEmpty (trim text)).
Qed.

Lemma blocksToText_text (v : jsstring) :
  blocksToText [toWire (TextBlock v)] = stripTags v.
Proof.
  unfold blocksToText, blockParts. cbn.
  destruct v as [|c v]; [reflexivity|].
  cbn. now rewrite app_nil_r.
Qed.

(** C8 (as the code has it): for a text without a fence line,
    [markdownToBlocks] returns exactly one text block; its value is the
    text with leading and trailing white space trimmed (inner newlines
    kept), or the text itself when nothing is left after trimming.
    [blocksToText] of that block is the value with every tag removed, and
    the value itself when it holds no opening angle bracket. *)
Theorem markdownToBlocks_fence_free (text : jsstring) :
  fenceFree text = true ->
  let value := if nonEmpty (trim text) then trim text else text in
  markdownToBlocks text = [TextBlock value]
  /\ blocksToText (map toWire (markdownToBlocks text)) = stripTags value
  /\ (Forall (fun c => c <> 60) value ->
      blocksToText (map toWire (markdownToBlocks text)) = value).
Proof.
  intros Hfree value.
  rewrite (markdownToBlocks_plain text Hfree). fold value.
  cbn [map]. rewrite blocksToText_text.
  repeat split. apply stripTags_plain.
Qed.

Lemma markdownToBlocks_fence_free_witness :
  let text := js " first" ++ [10] ++ js "second " in
  markdownToBlocks text = [TextBlock (js "first" ++ [10] ++ js "second")]
  /\ blocksToText (map toWire (markdownToBlocks text))
     = js "first" ++ [10] ++ js "second".
Proof.
  intros text.
  destruct (markdownToBlocks_fence_free text eq_refl) as (H1 & _ & H3).
  split; [exact H1 | apply H3].
  vm_compute. repeat constructor; discriminate.
Defined.

(** C8 as stated fails: the fence-free text [" hi"] comes back as the
    block ["hi"], and converting back does not recover [" hi"] either. *)
Lemma markdownToBlocks_trims_input :
  fenceFree (js " hi") = true
  /\ markdownToBlocks (js " hi") <> [TextBlock (js " hi")]
  /\ blocksToText (map toWire (markdownToBlocks (js " hi")))
     <> stripTags (js " hi").
Proof. repeat split; vm_compute; discriminate. Qed.

End ApiProps.

(** ** The function request normalizer (function.ts) *)

Module NormalizeProps.
Import Api Webhook FunctionEndpoint JsFacts Statements Sample.

Lemma orElse_firstNonEmpty (a b : option jsstring) :
  truthy (orElse a b) = true -> orElse a b = firstNonEmpty a b.
Proof.
  destruct a as [[|c s]|], b as [[|d t]|]; cbn;
    (reflexivity || discriminate).
Qed.

Lemma orElse_falsy (a b : option jsstring) :
  truthy (orElse a b) = false <-> firstNonEmpty a b = None.
Proof.
  destruct a as [[|c s]|], b as [[|d t]|]; cbn; split;
    (reflexivity || discriminate).
Qed.

Lemma orLit_firstNonEmpty (a b : option jsstring) :
  orLit (orElse a b) [] = default [] (firstNonEmpty a b).
Proof.
  destruct a as [[|c s]|], b as [[|d t]|]; reflexivity.
Qed.

(** The fields [normalize] reads, in terms of the request. *)
Lemma normalize_reads (rq : ChannelTalkFunctionRequest) :
  p_chat (default emptyParams (params rq)) ?. chat_id = nestedChatId rq
  /\ p_chatId (default emptyParams (params rq)) = flatChatId rq
  /\ p_input (default emptyParams (params rq)) ?. input_message
     = nestedMessage rq
  /\ p_value (default emptyParams (params rq)) = flatValue rq
  /\ default (js "user")
       (ctx_caller (default emptyContext (context rq)) ?. caller_type)
     = callerTypeOf rq
  /\ default (js "unknown")
       (ctx_caller (default emptyContext (context rq)) ?. caller_id)
     = callerIdOf rq.
Proof.
  unfold nestedChatId, flatChatId, nestedMessage, flatValue,
    callerTypeOf, callerIdOf.
  destruct rq as [mth [ps|] [cx|]]; repeat split; reflexivity.
Qed.

(** Without a chat id in either place the request is rejected, and the
    run of [processFunctionRequest] resolves with that rejection. *)
Lemma normalize_without_chat_id (now : N) (rq : ChannelTalkFunctionRequest) :
  firstNonEmpty (nestedChatId rq) (flatChatId rq) = None ->
  normalize now rq = Rejected (ResultError (js "Missing chatId in params")).
Proof.
  intros E. destruct (normalize_reads rq) as (Hn & Hf & _).
  unfold normalize. rewrite Hn, Hf.
  apply orElse_falsy in E. now rewrite E.
Qed.

Lemma processFunctionRequest_without_chat_id
  (toLowerCase : jsstring -> jsstring) (pluginApi : option PluginApi)
  (now : N) (rq : ChannelTalkFunctionRequest) (target : FunctionTarget) :
  firstNonEmpty (nestedChatId rq) (flatChatId rq) = None ->
  processFunctionRequest toLowerCase pluginApi now rq target
  = {| fr_result := inl (ResultError (js "Missing chatId in params"));
       fr_spawned := None |}.
Proof.
  intros E. unfold processFunctionRequest.
  now rewrite (normalize_without_chat_id now rq E).
Qed.

(** C5: [normalize] takes the chat id from the nested [chat] object when
    it is present and non-empty and from the flat [chatId] otherwise, and
    the text from the nested [input.message] when present and non-empty
    and from the flat [value] otherwise.  Without a chat id the result is
    the error response for the missing chat id; with a chat id and a text
    that is empty after trimming it is the error response for the missing
    input.  Both are values the promise resolves with, and no webhook run
    is started for them. *)
Theorem normalize_extraction (toLowerCase : jsstring -> jsstring)
  (pluginApi : option PluginApi) (now : N)
  (rq : ChannelTalkFunctionRequest) (target : FunctionTarget) :
  match firstNonEmpty (nestedChatId rq) (flatChatId rq) with
  | None =>
      normalize now rq
        = Rejected (ResultError (js "Missing chatId in params"))
      /\ processFunctionRequest toLowerCase pluginApi now rq target
         = {| fr_result := inl (ResultError (js "Missing chatId in params"));
              fr_spawned := None |}
  | Some id =>
      let text :=
        trim (default [] (firstNonEmpty (nestedMessage rq) (flatValue rq))) in
      if nonEmpty text then
        exists event message,
          normalize now rq = Synthesized event
          /\ entity event = Some message
          /\ e_chatId message = Some id
          /\ e_plainText message = Some text
      else
        normalize now rq = Rejected (ResultError (js "Missing user input"))
        /\ processFunctionRequest toLowerCase pluginApi now rq target
           = {| fr_result := inl (ResultError (js "Missing user input"));
                fr_spawned := None |}
  end.
Proof.
  destruct (normalize_reads rq) as (Hn & Hf & Hm & Hv & _ & _).
  unfold processFunctionRequest, normalize.
  rewrite Hn, Hf, Hm, Hv, orLit_firstNonEmpty.
  destruct (firstNonEmpty (nestedChatId rq) (flatChatId rq)) as [id|] eqn:E.
  - assert (Ht : truthy (orElse (nestedChatId rq) (flatChatId rq)) = true).
    { destruct (truthy (orElse (nestedChatId rq) (flatChatId rq))) eqn:T;
        [reflexivity|]. apply orElse_falsy in T. congruence. }
    rewrite Ht. cbn [negb].
    destruct (nonEmpty _) eqn:Htext; cbn [negb].
    + eexists _, _. repeat split.
      cbn. now rewrite (orElse_firstNonEmpty _ _ Ht).
    + split; reflexivity.
  - apply orElse_falsy in E. rewrite E. split; reflexivity.
Qed.

(** The field-priority example: nested [G1] wins over flat [G2]. *)
Example normalize_nested_wins :
  exists event message,
    normalize 7 (requestWith (Some (js "G1")) (Some (js "G2"))
                             None (Some (js "hi")) None)
      = Synthesized event
    /\ entity event = Some message
    /\ e_chatId message = Some (js "G1").
Proof. eexists _, _. repeat split. Qed.

(** C6 (as the code has it): the caller kind (absent: [user]) becomes the
    author's [personType] unchanged.  Kind [manager] fills the
    referenced-manager slot only, kind [user] the referenced-customer
    slot only, and any other kind fills neither.  Downstream the sender
    resolves through the manager record exactly for kind [manager]. *)
Theorem normalize_author_slots (now : N) (rq : ChannelTalkFunctionRequest)
  (event : ChannelTalkWebhookEvent) :
  normalize now rq = Synthesized event ->
  exists message r,
    entity event = Some message
    /\ refers event = Some r
    /\ e_personType message = Some (callerTypeOf rq)
    /\ (if strEq (callerTypeOf rq) (js "manager") then
          manager r = Some {| m_id := Some (callerIdOf rq);
                              m_name := Some (js "Manager");
                              m_email := None |}
          /\ user r = None
        else if strEq (callerTypeOf rq) (js "user") then
          user r = Some {| u_id := Some (callerIdOf rq);
                           u_name := Some (js "User");
                           u_profile := None |}
          /\ manager r = None
        else manager r = None /\ user r = None)
    /\ resolveSender event message
       = {| senderId := callerIdOf rq;
            senderName := if strEq (callerTypeOf rq) (js "manager")
                          then js "Manager" else js "User";
            senderEmail := None |}.
Proof.
  destruct (normalize_reads rq) as (_ & _ & _ & _ & Ht & Hi).
  unfold normalize. rewrite Ht, Hi.
  destruct (negb (truthy _)); [discriminate|].
  destruct (negb (nonEmpty _)); [discriminate|].
  intros [= <-]. eexists _, _. split; [reflexivity|].
  split; [reflexivity|]. split; [reflexivity|].
  unfold resolveSender. cbn.
  destruct (strEq (callerTypeOf rq) (js "manager")) eqn:Em.
  - apply strEq_true in Em. rewrite Em. cbn. repeat split.
  - destruct (strEq (callerTypeOf rq) (js "user")) eqn:Eu; cbn;
      repeat split.
Qed.

Lemma normalize_author_slots_witness :
  exists event message r,
    normalize 7 (requestWith (Some (js "G1")) None None (Some (js "hi"))
                             (Some (js "manager")))
      = Synthesized event
    /\ entity event = Some message
    /\ refers event = Some r
    /\ is_Some (manager r) /\ user r = None
    /\ senderName (resolveSender event message) = js "Manager".
Proof.
  eexists. 
  destruct (normalize_author_slots 7
              (requestWith (Some (js "G1")) None None (Some (js "hi"))
                           (Some (js "manager"))) _ eq_refl)
    as (message & r & He & Hr & _ & Hs & Hn).
  exists message, r. split; [reflexivity|]. split; [exact He|].
  split; [exact Hr|]. cbn in Hs. destruct Hs as [Hm Hu].
  split; [rewrite Hm; eexists; reflexivity|]. split; [exact Hu|].
  now rewrite Hn.
Defined.

(** C6 as stated fails: for caller kind [bot] neither slot is filled,
    and the synthesized event is one the message filter skips, so the
    author is not treated as a customer. *)
Lemma normalize_bot_caller_no_slot :
  exists event r,
    normalize 7 (requestWith (Some (js "G1")) None None (Some (js "hi"))
                             (Some (js "bot")))
      = Synthesized event
    /\ refers event = Some r
    /\ manager r = None /\ user r = None
    /\ shouldProcess asciiLower event (webhookTargetOf sampleFunctionTarget)
       = false.
Proof. eexists _, _. repeat split. Qed.

End NormalizeProps.

(** ** Event processing (webhook.ts) *)

Module WebhookProps.
Import Api Webhook JsFacts Statements Sample.

Section Filter.

Variable toLowerCase : jsstring -> jsstring.

Lemma optIs_true (o : option jsstring) (lit : jsstring) :
  optIs o lit = true <-> o = Some lit.
Proof.
  destruct o as [s|]; cbn; [rewrite strEq_true|]; split; congruence.
Qed.

Lemma optIs_false (o : option jsstring) (lit : jsstring) :
  optIs o lit = false <-> o <> Some lit.
Proof.
  rewrite <- optIs_true. destruct (optIs o lit); split; congruence.
Qed.

(** What [accept] has checked when it lets an event through. *)
Lemma accept_inv (event : ChannelTalkWebhookEvent) (target : WebhookTarget)
  (a : Accepted) :
  accept toLowerCase event target = Some a ->
  ev_type event = Some (js "Message")
  /\ entity event = Some (a_message a)
  /\ e_personType (a_message a) <> Some (js "bot")
  /\ resolvedChatId event (a_message a) = Some (a_chatId a)
  /\ a_chatId a <> []
  /\ a_rawBody a = rawBodyOf (a_message a)
  /\ a_rawBody a <> []
  /\ a_isGroupChat a
     = strEq (default (js "userChat") (e_chatType (a_message a))) (js "group").
Proof.
  unfold accept, resolvedChatId.
  destruct (optIs (ev_type event) (js "Message")) eqn:Et; [|discriminate].
  destruct (entity event) as [m|]; [|discriminate]. cbn [negb].
  destruct (optIs (e_personType m) (js "bot")) eqn:Eb; [discriminate|].
  destruct (truthy _) eqn:Ec; [|discriminate]. cbn [negb].
  destruct (nonEmpty (rawBodyOf m)) eqn:Er; [|discriminate]. cbn [negb].
  destruct (_ && _ && _); [discriminate|].
  intros [= <-]. cbn.
  apply optIs_true in Et. apply optIs_false in Eb.
  apply truthy_Some in Ec as (c & s & Ec). rewrite Ec. cbn.
  repeat split; try assumption; try discriminate.
  destruct (rawBodyOf m); [discriminate | discriminate].
Qed.

(** [shouldProcess] spelled out for a message event. *)
Lemma shouldProcess_unfold (event : ChannelTalkWebhookEvent)
  (target : WebhookTarget) (message : Entity) :
  ev_type event = Some (js "Message") ->
  entity event = Some message ->
  e_personType message <> Some (js "bot") ->
  rawBodyOf message <> [] ->
  shouldProcess toLowerCase event target
  = negb (strEq (default (js "userChat") (e_chatType message)) (js "group")
          && (0 <? length (triggerKeywords target))%nat
          && negb (triggered toLowerCase (triggerKeywords target)
                             (rawBodyOf message))).
Proof.
  intros Ht He Hb Hr. unfold shouldProcess.
  apply optIs_true in Ht. apply optIs_false in Hb.
  rewrite Ht, He. cbn [negb]. rewrite Hb.
  destruct (rawBodyOf message) as [|c r]; [congruence|]. cbn [nonEmpty negb].
  now destruct (_ && _ && _).
Qed.

(** The run gets past line 165 exactly when the message filter passes
    and a non-empty chat id is resolved. *)
Lemma accept_shouldProcess (event : ChannelTalkWebhookEvent)
  (target : WebhookTarget) :
  match accept toLowerCase event target with
  | Some _ => true
  | None => false
  end
  = shouldProcess toLowerCase event target
    && match entity event with
       | Some message => truthy (resolvedChatId event message)
       | None => false
       end.
Proof.
  unfold accept, shouldProcess, resolvedChatId.
  destruct (negb (optIs (ev_type event) (js "Message"))); [reflexivity|].
  destruct (entity event) as [m|]; [|reflexivity].
  destruct (optIs (e_personType m) (js "bot")); [reflexivity|].
  destruct (truthy _); cbn [negb].
  - destruct (negb (nonEmpty (rawBodyOf m))); [reflexivity|].
    now destruct (_ && _ && _).
  - destruct (negb (nonEmpty (rawBodyOf m))); [reflexivity|].
    now destruct (_ && _ && _).
Qed.

Lemma triggered_substring (keywords : list jsstring) (rawBody : jsstring) :
  triggered toLowerCase keywords rawBody = true <->
  exists kw pre post,
    In kw keywords
    /\ toLowerCase rawBody = pre ++ toLowerCase kw ++ post.
Proof.
  unfold triggered. rewrite existsb_exists. split.
  - intros (kw & Hin & Hinc). apply includes_substring in Hinc.
    destruct Hinc as (pre & post & E). now exists kw, pre, post.
  - intros (kw & pre & post & Hin & E). exists kw. split; [assumption|].
    apply includes_substring. now exists pre, post.
Qed.

(** C4: keyword gating is group-only.  For a message event that is not
    bot-authored and whose text is non-empty after trimming: in a direct
    chat [shouldProcess] is true whatever the trigger keywords are; in a
    group chat it is true exactly when there are no trigger keywords or
    the lower-cased text contains some lower-cased keyword as a
    substring.  The run then goes on to the sender exactly when
    [shouldProcess] holds and a chat id is resolved. *)
Theorem keyword_gating_group_only (event : ChannelTalkWebhookEvent)
  (target : WebhookTarget) (message : Entity) :
  ev_type event = Some (js "Message") ->
  entity event = Some message ->
  e_personType message <> Some (js "bot") ->
  rawBodyOf message <> [] ->
  (default (js "userChat") (e_chatType message) <> js "group" ->
   forall keywords,
     shouldProcess toLowerCase event (withTriggerKeywords keywords target)
     = true)
  /\ (e_chatType message = Some (js "group") ->
      (shouldProcess toLowerCase event target = true <->
       triggerKeywords target = []
       \/ exists kw pre post,
            In kw (triggerKeywords target)
            /\ toLowerCase (rawBodyOf message)
               = pre ++ toLowerCase kw ++ post))
  /\ match accept toLowerCase event target with
     | Some _ => true
     | None => false
     end
     = shouldProcess toLowerCase event target
       && truthy (resolvedChatId event message).
Proof.
  intros Ht He Hb Hr. split; [|split].
  - intros Hdirect keywords.
    rewrite (shouldProcess_unfold _ _ message) by assumption.
    apply strEq_false in Hdirect. now rewrite Hdirect.
  - intros Hgroup.
    rewrite (shouldProcess_unfold _ _ message) by assumption.
    rewrite Hgroup. cbn [default]. rewrite strEq_refl. cbn [andb].
    rewrite <- triggered_substring.
    destruct (triggerKeywords target) as [|kw kws].
    + cbn. split; [now left | reflexivity].
    + cbn [length Nat.ltb Nat.leb andb].
      rewrite negb_involutive. split.
      * intros H. now right.
      * intros [H | H]; [discriminate | assumption].
  - rewrite accept_shouldProcess. now rewrite He.
Qed.

End Filter.

Lemma keyword_gating_group_only_witness :
  shouldProcess asciiLower directHello
    (withTriggerKeywords [js "AI"; js "bot"] (sampleTarget [])) = true
  /\ (shouldProcess asciiLower anonymousManager (sampleTarget [js "ai"])
      = true <->
      triggerKeywords (sampleTarget [js "ai"]) = []
      \/ exists kw pre post,
           In kw (triggerKeywords (sampleTarget [js "ai"]))
           /\ asciiLower (js "Hello AI") = pre ++ asciiLower kw ++ post).
Proof.
  split.
  - refine (proj1 (keyword_gating_group_only asciiLower directHello
                     (sampleTarget []) _ eq_refl eq_refl _ _) _ _);
      vm_compute; discriminate.
  - refine (proj1 (proj2 (keyword_gating_group_only asciiLower
                            anonymousManager (sampleTarget [js "ai"]) _
                            eq_refl eq_refl _ _)) eq_refl);
      vm_compute; discriminate.
Defined.

End WebhookProps.

(** ** Chat identity, the pairing gate and dispatch (webhook.ts) *)

Module GateProps.
Import Api Webhook JsFacts Statements Sample WebhookProps.

Lemma invokesPipeline_dispatch (rt : Runtime) (now : N)
  (target : WebhookTarget) (a : Accepted) (s : Sender) :
  invokesPipeline (dispatch rt now target a s) = true.
Proof. reflexivity. Qed.

Lemma upsertsOf_deliveries (target : WebhookTarget) (chatId : jsstring)
  (isGroupChat : bool) (payloads : list ReplyPayload) :
  upsertsOf (flat_map (deliver target chatId isGroupChat) payloads) = [].
Proof.
  induction payloads as [|p ps IH]; [reflexivity|].
  cbn [flat_map]. unfold upsertsOf in *. rewrite flat_map_app, IH.
  unfold deliver. now destruct (negb _).
Qed.

Lemma upsertsOf_dispatch (rt : Runtime) (now : N)
  (target : WebhookTarget) (a : Accepted) (s : Sender) :
  upsertsOf (dispatch rt now target a s) = [].
Proof. unfold dispatch. apply upsertsOf_deliveries. Qed.

(** Any policy other than pairing lets every sender through. *)
Lemma gate_not_pairing (api : PluginApi) (now : N) (target : WebhookTarget)
  (a : Accepted) (s : Sender) :
  policyOf api target <> PolicyPairing ->
  gateAndDispatch api now target a s = dispatch (runtime api) now target a s.
Proof.
  unfold gateAndDispatch, policyOf.
  now destruct (default PolicyPairing _).
Qed.

(** Under pairing, an allowed sender goes on to the agent. *)
Lemma gate_pairing_allowed (api : PluginApi) (now : N)
  (target : WebhookTarget) (a : Accepted) (s : Sender) :
  policyOf api target = PolicyPairing ->
  isAllowed (combinedAllowFrom api target) (senderId s) = true ->
  gateAndDispatch api now target a s
  = ReadAllowFromStore channelName
      :: dispatch (runtime api) now target a s.
Proof.
  unfold gateAndDispatch, policyOf, combinedAllowFrom.
  intros -> ->. reflexivity.
Qed.

(** Under pairing, any other sender stops at the pairing request. *)
Lemma gate_pairing_pending (api : PluginApi) (now : N)
  (target : WebhookTarget) (a : Accepted) (s : Sender) :
  policyOf api target = PolicyPairing ->
  isAllowed (combinedAllowFrom api target) (senderId s) = false ->
  gateAndDispatch api now target a s
  = ReadAllowFromStore channelName
      :: UpsertPairingRequest channelName (senderId s) (senderName s)
      :: if created (upsertPairingRequest (runtime api) channelName
                       (senderId s) (senderName s))
         then [SendMessage
                 {| send_creds := creds target;
                    send_chatId := a_chatId a;
                    send_text :=
                      pairingReplyText (runtime api) (a_message a)
                        (senderId s)
                        (code (upsertPairingRequest (runtime api) channelName
                                 (senderId s) (senderName s)));
                    send_botName := botName target;
                    send_chatType := sendChatType (a_isGroupChat a) |}]
         else [].
Proof.
  unfold gateAndDispatch, policyOf, combinedAllowFrom.
  intros -> ->. reflexivity.
Qed.


Lemma isAllowed_member (l : list jsstring) (sender : jsstring) :
  isAllowed l sender = true <-> In sender l \/ In [42] l.
Proof.
  unfold isAllowed. now rewrite orb_true_iff, !arrIncludes_elem.
Qed.

Section Runs.

Variable toLowerCase : jsstring -> jsstring.

Lemma process_accepted (api : PluginApi) (now : N)
  (event : ChannelTalkWebhookEvent) (target : WebhookTarget) (a : Accepted) :
  accept toLowerCase event target = Some a ->
  processWebhookEvent toLowerCase (Some api) now event target
  = {| effects := gateAndDispatch api now target a
                    (resolveSender event (a_message a));
       completion := Returned |}.
Proof. unfold processWebhookEvent. now intros ->. Qed.

(** Without a non-empty chat id the run ends at line 153. *)
Lemma dropped_without_chat_id (pluginApi : option PluginApi) (now : N)
  (event : ChannelTalkWebhookEvent) (target : WebhookTarget)
  (message : Entity) :
  entity event = Some message ->
  truthy (resolvedChatId event message) = false ->
  processWebhookEvent toLowerCase pluginApi now event target = dropped.
Proof.
  intros He Hc. unfold processWebhookEvent, accept.
  destruct (negb (optIs (ev_type event) (js "Message"))); [reflexivity|].
  rewrite He.
  destruct (optIs (e_personType message) (js "bot")); [reflexivity|].
  unfold resolvedChatId in Hc. now rewrite Hc.
Qed.

(** C2 (as the code has it): the chat id is [message.chatId], and the id
    of the referenced user chat when the message-level field is absent.
    When no chat id is found this way, or the one found is the empty
    string, [processWebhookEvent] returns without any effect and without
    an error, as it does for every filtered event. *)
Theorem chat_id_resolution (pluginApi : option PluginApi) (now : N)
  (event : ChannelTalkWebhookEvent) (target : WebhookTarget)
  (message : Entity) :
  entity event = Some message ->
  (forall a, accept toLowerCase event target = Some a ->
     match e_chatId message with
     | Some c => a_chatId a = c
     | None => refers event ?. userChat ?. uc_id = Some (a_chatId a)
     end)
  /\ (truthy (resolvedChatId event message) = false ->
      processWebhookEvent toLowerCase pluginApi now event target = dropped)
  /\ (e_chatId message = None ->
      refers event ?. userChat ?. uc_id = None ->
      processWebhookEvent toLowerCase pluginApi now event target = dropped).
Proof.
  intros He.
  pose proof (dropped_without_chat_id pluginApi now event target message He)
    as Hdrop.
  split; [|split].
  - intros a Ha. apply accept_inv in Ha as (_ & Hm & _ & Hc & _).
    rewrite He in Hm. injection Hm as ->.
    unfold resolvedChatId in Hc.
    destruct (e_chatId (a_message a)) as [c|]; cbn in Hc;
      [congruence | exact Hc].
  - exact Hdrop.
  - intros H1 H2. apply Hdrop. unfold resolvedChatId. now rewrite H1, H2.
Qed.

(** Replacing [groupAllowFrom] changes neither the filter nor the run. *)
Lemma groupAllowFrom_unread (pluginApi : option PluginApi) (now : N)
  (event : ChannelTalkWebhookEvent) (target : WebhookTarget)
  (g : option (list jsstring)) :
  shouldProcess toLowerCase event (withGroupAllowFrom g target)
  = shouldProcess toLowerCase event target
  /\ accept toLowerCase event (withGroupAllowFrom g target)
     = accept toLowerCase event target
  /\ processWebhookEvent toLowerCase pluginApi now event
       (withGroupAllowFrom g target)
     = processWebhookEvent toLowerCase pluginApi now event target.
Proof. repeat split. Qed.

Lemma same_up_to_groupAllowFrom (t1 t2 : WebhookTarget) :
  accountId t1 = accountId t2 ->
  creds t1 = creds t2 ->
  botName t1 = botName t2 ->
  triggerKeywords t1 = triggerKeywords t2 ->
  cfg t1 = cfg t2 ->
  t2 = withGroupAllowFrom (groupAllowFrom t2) t1.
Proof.
  destruct t1, t2. cbn. intros -> -> -> -> ->. reflexivity.
Qed.

(** C10: the [groupAllowFrom] of the target never influences the
    processing of an event: two targets that agree on every other field
    give the same process/skip decision and the same run, that is the
    same pairing requests, the same sends and the same invocation of the
    agent. *)
Theorem groupAllowFrom_ignored (pluginApi : option PluginApi) (now : N)
  (event : ChannelTalkWebhookEvent) (t1 t2 : WebhookTarget) :
  accountId t1 = accountId t2 ->
  creds t1 = creds t2 ->
  botName t1 = botName t2 ->
  triggerKeywords t1 = triggerKeywords t2 ->
  cfg t1 = cfg t2 ->
  shouldProcess toLowerCase event t1 = shouldProcess toLowerCase event t2
  /\ accept toLowerCase event t1 = accept toLowerCase event t2
  /\ processWebhookEvent toLowerCase pluginApi now event t1
     = processWebhookEvent toLowerCase pluginApi now event t2.
Proof.
  intros H1 H2 H3 H4 H5.
  rewrite (same_up_to_groupAllowFrom t1 t2 H1 H2 H3 H4 H5).
  destruct (groupAllowFrom_unread pluginApi now event t1 (groupAllowFrom t2))
    as (Hs & Ha & Hp).
  now rewrite Hs, Ha, Hp.
Qed.

End Runs.

Lemma groupAllowFrom_ignored_witness :
  processWebhookEvent asciiLower (Some (sampleApi (Some PolicyOpen) [] [] true))
    5 anonymousManager (sampleTarget [js "ai"])
  = processWebhookEvent asciiLower
      (Some (sampleApi (Some PolicyOpen) [] [] true))
      5 anonymousManager
      (withGroupAllowFrom (Some [js "G2"]) (sampleTarget [js "ai"])).
Proof.
  refine (proj2 (proj2 (groupAllowFrom_ignored asciiLower _ 5
                          anonymousManager (sampleTarget [js "ai"])
                          (withGroupAllowFrom (Some [js "G2"])
                                              (sampleTarget [js "ai"]))
                          eq_refl eq_refl eq_refl eq_refl eq_refl))).
Defined.

Lemma chat_id_resolution_witness :
  processWebhookEvent asciiLower
    (Some (sampleApi None [] [] true)) 5 helloWithoutChat (sampleTarget [])
  = dropped.
Proof.
  refine (proj2 (proj2 (chat_id_resolution asciiLower _ 5 helloWithoutChat
                          (sampleTarget []) _ eq_refl)) eq_refl eq_refl).
Defined.

(** C2 as stated fails: an event without any chat id makes the run
    return normally, with no error and no effect; the outcome is the one
    of a message the bot wrote itself, which does carry a chat id. *)
Lemma missing_chat_id_is_silent :
  let run event :=
    processWebhookEvent asciiLower (Some (sampleApi None [] [] true)) 5
                        event (sampleTarget []) in
  resolvedChatId helloWithoutChat
    (messageOf None (Some (js "userChat")) (Some (js "user"))
               (Some (js "U1")) (Some (js "hello"))) = None
  /\ completion (run helloWithoutChat) = Returned
  /\ (forall err, completion (run helloWithoutChat) <> Threw err)
  /\ effects (run helloWithoutChat) = []
  /\ run helloWithoutChat = run botEcho.
Proof. repeat split. intros err. discriminate. Qed.

(** C1 (where the code departs from it): the policies [disabled] and
    [allowlist] are not enforced.  A customer who is on no allow list
    reaches the agent under [disabled], also when listed, and under
    [allowlist]; no pairing request is made.  Policy [open] lets the
    same customer through, and [pairing] stops them. *)
Theorem disabled_and_allowlist_not_enforced :
  let run policy allow :=
    effects (processWebhookEvent asciiLower
               (Some (sampleApi (Some policy) allow [] true)) 5
               directHello (sampleTarget [])) in
  invokesPipeline (run PolicyDisabled []) = true
  /\ invokesPipeline (run PolicyDisabled [js "U1"]) = true
  /\ invokesPipeline (run PolicyAllowlist [js "U2"]) = true
  /\ upsertsOf (run PolicyDisabled []) = []
  /\ upsertsOf (run PolicyAllowlist [js "U2"]) = []
  /\ invokesPipeline (run PolicyOpen []) = true
  /\ invokesPipeline (run PolicyPairing []) = false
  /\ invokesPipeline (run PolicyPairing [js "U1"]) = true.
Proof. repeat split. Qed.

Section Pairing.

Variable toLowerCase : jsstring -> jsstring.

Lemma sendsOf_pending (head : list Effect) (c : SendCall) (b : bool) :
  sendsOf head = [] ->
  sendsOf (head ++ (if b then [SendMessage c] else []))
  = if b then [c] else [].
Proof.
  intros H. unfold sendsOf in *. rewrite flat_map_app, H.
  now destruct b.
Qed.



End Pairing.



End GateProps.

(** ** The HTTP handlers (webhook.ts, function.ts) *)

Module HandlerProps.
Import Api Webhook WebhookHandler FunctionEndpoint.
Import JsFacts Statements Statements3 Sample.
Import WebhookProps GateProps NormalizeProps.

Section Handlers.

Variable toLowerCase : jsstring -> jsstring.
Variable parseW : list Byte.byte -> option (Json ChannelTalkWebhookEvent).
Variable parseF : list Byte.byte -> option (Json ChannelTalkFunctionRequest).

Lemma readJsonBody_parsed {T} (parse : list Byte.byte -> option (Json T))
  (req : IncomingMessage) (raw : list Byte.byte) :
  req_close req = StreamEnd ->
  bodyOf req = Some raw ->
  readJsonBody parse req maxBodyBytes
  = match parse raw with
    | Some data => inl data
    | None => inr invalid_json
    end.
Proof. unfold readJsonBody, bodyOf. now intros -> ->. Qed.

(** The webhook handler once the request is routed to a target. *)
Lemma webhook_routed (targets : gmap jsstring WebhookTarget)
  (pluginApi : option PluginApi) (now : N) (req : IncomingMessage)
  (target : WebhookTarget) :
  webhookRouted targets req target ->
  handleChannelTalkWebhook toLowerCase parseW targets pluginApi now req
  = match readJsonBody parseW req maxBodyBytes with
    | inr error =>
        respond (match error with payload_too_large => 413 | _ => 400 end)
                [] (errorText error) None
    | inl data =>
        respond 200 [(js "Content-Type", js "application/json")] (js "{}")
          (Some match data with
                | JsonNull =>
                    {| effects := [];
                       completion := Threw (nullReadError (js "type")) |}
                | JsonValue event =>
                    processWebhookEvent toLowerCase pluginApi now event target
                end)
    end.
Proof.
  intros (Hp & Hm & Ht). unfold handleChannelTalkWebhook.
  rewrite Hp, Hm. cbn [negb optIs]. rewrite strEq_refl. cbn [negb].
  now rewrite Ht.
Qed.

Lemma function_routed (targets : gmap jsstring FunctionTarget)
  (pluginApi : option PluginApi) (now : N) (req : IncomingMessage)
  (target : FunctionTarget) :
  functionRouted targets req target ->
  handleChannelTalkFunction toLowerCase parseF targets pluginApi now req
  = match readJsonBody parseF req maxBodyBytes with
    | inr error =>
        respond (match error with payload_too_large => 413 | _ => 400 end)
                [] (errorBody error) None
    | inl data =>
        respond 200 [(js "Content-Type", js "application/json")] ackBody
          (Some match data with
                | JsonNull =>
                    {| fr_result := inr (nullReadError (js "params"));
                       fr_spawned := None |}
                | JsonValue request =>
                    processFunctionRequest toLowerCase pluginApi now
                                           request target
                end)
    end.
Proof.
  intros (Hp & Hm & Ht). unfold handleChannelTalkFunction.
  rewrite Hp, Hm. cbn [negb optIs]. rewrite strEq_refl. cbn [negb].
  now rewrite Ht.
Qed.

Lemma readJsonBody_too_large {T} (parse : list Byte.byte -> option (Json T))
  (req : IncomingMessage) :
  bodyOf req = None ->
  readJsonBody parse req maxBodyBytes = inr payload_too_large.
Proof. unfold readJsonBody, bodyOf. now intros ->. Qed.

Lemma readJsonBody_read_error {T}
  (parse : list Byte.byte -> option (Json T)) (req : IncomingMessage) :
  bodyOf req <> None -> req_close req = StreamError ->
  readJsonBody parse req maxBodyBytes = inr read_error.
Proof.
  unfold readJsonBody, bodyOf. intros Hb ->.
  now destruct (readChunks _ _ _ _).
Qed.

(** An event without entity, or whose entity has no chat id, ends at
    line 139, 142, 145 or 153. *)
Lemma dropped_without_event_chat_id (pluginApi : option PluginApi) (now : N)
  (event : ChannelTalkWebhookEvent) (target : WebhookTarget) :
  truthy (eventChatId event) = false ->
  processWebhookEvent toLowerCase pluginApi now event target = dropped.
Proof.
  unfold eventChatId. destruct (entity event) as [message|] eqn:He.
  - cbn [chain]. now apply dropped_without_chat_id.
  - intros _. unfold processWebhookEvent, accept. rewrite He.
    now destruct (negb (optIs (ev_type event) (js "Message"))).
Qed.

(** C7 (as the code has it): what a request routed to an account gets
    for a body that cannot be used.  Three bodies are refused at once,
    without any background task: one that arrived completely and within
    the 5 MiB cap but is not valid JSON (status 400, code invalid_json),
    one that exceeds the cap, valid or not (status 413, code
    payload_too_large), and one whose stream fails below the cap
    (status 400, code read_error); the webhook handler sends the code
    as plain text, the function handler inside a JSON error object.
    Every body that parses is acknowledged with status 200 like any
    other and the background task is started, whatever it lacks: for
    the body [null] the run rejects with the TypeError of the first
    property read; for an event without entity or without chat id the
    webhook run returns without effect; for a command without chat id
    the function run resolves with the missing-chat-id error response,
    which nobody reads. *)
Theorem malformed_input_handling
  (webhookTargets : gmap jsstring WebhookTarget)
  (functionTargets : gmap jsstring FunctionTarget)
  (pluginApi : option PluginApi) (now : N)
  (reqW reqF : IncomingMessage)
  (targetW : WebhookTarget) (targetF : FunctionTarget) :
  webhookRouted webhookTargets reqW targetW ->
  functionRouted functionTargets reqF targetF ->
  let handledW :=
    handleChannelTalkWebhook toLowerCase parseW webhookTargets
                             pluginApi now reqW in
  let handledF :=
    handleChannelTalkFunction toLowerCase parseF functionTargets
                              pluginApi now reqF in
  (forall raw, received reqW raw -> parseW raw = None ->
     handledW = respond 400 [] (js "invalid_json") None)
  /\ (forall raw, received reqF raw -> parseF raw = None ->
        handledF = respond 400 [] (errorBody invalid_json) None)
  /\ (bodyOf reqW = None ->
      handledW = respond 413 [] (js "payload_too_large") None)
  /\ (bodyOf reqF = None ->
      handledF = respond 413 [] (errorBody payload_too_large) None)
  /\ (bodyOf reqW <> None -> req_close reqW = StreamError ->
      handledW = respond 400 [] (js "read_error") None)
  /\ (bodyOf reqF <> None -> req_close reqF = StreamError ->
      handledF = respond 400 [] (errorBody read_error) None)
  /\ (forall raw, received reqW raw -> parseW raw = Some JsonNull ->
        handledW
        = respond 200 jsonHeaders (js "{}")
            (Some {| effects := [];
                     completion := Threw (nullReadError (js "type")) |}))
  /\ (forall raw, received reqF raw -> parseF raw = Some JsonNull ->
        handledF
        = respond 200 jsonHeaders ackBody
            (Some {| fr_result := inr (nullReadError (js "params"));
                     fr_spawned := None |}))
  /\ (forall raw event,
        received reqW raw -> parseW raw = Some (JsonValue event) ->
        truthy (eventChatId event) = false ->
        handledW = respond 200 jsonHeaders (js "{}") (Some dropped))
  /\ (forall raw request,
        received reqF raw -> parseF raw = Some (JsonValue request) ->
        firstNonEmpty (nestedChatId request) (flatChatId request) = None ->
        handledF
        = respond 200 jsonHeaders ackBody
            (Some {| fr_result :=
                       inl (ResultError (js "Missing chatId in params"));
                     fr_spawned := None |})).
Proof.
  intros HrW HrF handledW handledF. subst handledW handledF.
  rewrite (webhook_routed _ _ _ _ _ HrW), (function_routed _ _ _ _ _ HrF).
  unfold received, jsonHeaders.
  repeat match goal with |- _ /\ _ => split end.
  - intros raw (Hc & Hb) Hp.
    now rewrite (readJsonBody_parsed parseW reqW raw Hc Hb), Hp.
  - intros raw (Hc & Hb) Hp.
    now rewrite (readJsonBody_parsed parseF reqF raw Hc Hb), Hp.
  - intros Hb. now rewrite (readJsonBody_too_large parseW reqW Hb).
  - intros Hb. now rewrite (readJsonBody_too_large parseF reqF Hb).
  - intros Hb Hc. now rewrite (readJsonBody_read_error parseW reqW Hb Hc).
  - intros Hb Hc. now rewrite (readJsonBody_read_error parseF reqF Hb Hc).
  - intros raw (Hc & Hb) Hp.
    now rewrite (readJsonBody_parsed parseW reqW raw Hc Hb), Hp.
  - intros raw (Hc & Hb) Hp.
    now rewrite (readJsonBody_parsed parseF reqF raw Hc Hb), Hp.
  - intros raw event (Hc & Hb) Hp Hid.
    rewrite (readJsonBody_parsed parseW reqW raw Hc Hb), Hp.
    now rewrite (dropped_without_event_chat_id pluginApi now event targetW
                   Hid).
  - intros raw request (Hc & Hb) Hp Hnone.
    rewrite (readJsonBody_parsed parseF reqF raw Hc Hb), Hp.
    now rewrite (processFunctionRequest_without_chat_id toLowerCase
                   pluginApi now request targetF Hnone).
Qed.

End Handlers.

(** An invalid body is refused by both handlers; the body [null] is
    acknowledged by both and the run started for it rejects. *)
Lemma malformed_input_handling_witness :
  let broken path method := requestOf method path brokenBody in
  let null path method := requestOf method path nullBody in
  handleChannelTalkWebhook asciiLower parseSampleEvent sampleWebhookTargets
    None 5 (broken webhookPath (js "POST"))
  = respond 400 [] (js "invalid_json") None
  /\ handleChannelTalkFunction asciiLower parseSampleRequest
       sampleFunctionTargets None 5 (broken functionPath (js "PUT"))
     = respond 400 [] (errorBody invalid_json) None
  /\ handleChannelTalkWebhook asciiLower parseSampleEvent
       sampleWebhookTargets None 5 (null webhookPath (js "POST"))
     = respond 200 jsonHeaders (js "{}")
         (Some {| effects := [];
                  completion := Threw (nullReadError (js "type")) |})
  /\ handleChannelTalkFunction asciiLower parseSampleRequest
       sampleFunctionTargets None 5 (null functionPath (js "PUT"))
     = respond 200 jsonHeaders ackBody
         (Some {| fr_result := inr (nullReadError (js "params"));
                  fr_spawned := None |}).
Proof.
  intros broken null.
  assert (Hbroken :
    webhookRouted sampleWebhookTargets (broken webhookPath (js "POST"))
                  (sampleTarget [])
    /\ functionRouted sampleFunctionTargets (broken functionPath (js "PUT"))
                      sampleFunctionTarget) by (repeat split).
  assert (Hnull :
    webhookRouted sampleWebhookTargets (null webhookPath (js "POST"))
                  (sampleTarget [])
    /\ functionRouted sampleFunctionTargets (null functionPath (js "PUT"))
                      sampleFunctionTarget) by (repeat split).
  destruct (malformed_input_handling asciiLower parseSampleEvent
              parseSampleRequest sampleWebhookTargets sampleFunctionTargets
              None 5 (broken webhookPath (js "POST")) (broken functionPath (js "PUT"))
              (sampleTarget []) sampleFunctionTarget
              (proj1 Hbroken) (proj2 Hbroken))
    as (HW & HF & _).
  destruct (malformed_input_handling asciiLower parseSampleEvent
              parseSampleRequest sampleWebhookTargets sampleFunctionTargets
              None 5 (null webhookPath (js "POST")) (null functionPath (js "PUT"))
              (sampleTarget []) sampleFunctionTarget
              (proj1 Hnull) (proj2 Hnull))
    as (_ & _ & _ & _ & _ & _ & HWn & HFn & _).
  split; [apply (HW brokenBody); now repeat split|].
  split; [apply (HF brokenBody); now repeat split|].
  split; [apply (HWn nullBody); now repeat split|].
  apply (HFn nullBody); now repeat split.
Defined.

(** C7 as stated fails: a function request whose body is the empty JSON
    object has no chat id, yet it is answered with status 200 and the
    acknowledgement, and the background task is started; the same holds
    for the webhook handler. *)
Lemma missing_chat_field_is_acknowledged :
  let handledF :=
    handleChannelTalkFunction asciiLower parseRequest sampleFunctionTargets
      None 5 (requestOf (js "PUT") functionPath emptyObjectBody) in
  let handledW :=
    handleChannelTalkWebhook asciiLower parseEvent sampleWebhookTargets
      None 5 (requestOf (js "POST") webhookPath emptyObjectBody) in
  (statusCode <$> response handledF) = Some 200
  /\ (body <$> response handledF) = Some ackBody
  /\ background handledF
     = Some {| fr_result := inl (ResultError (js "Missing chatId in params"));
               fr_spawned := None |}
  /\ (statusCode <$> response handledW) = Some 200
  /\ background handledW = Some dropped.
Proof. repeat split. Qed.

End HandlerProps.

(** ** Further facts about the string built-ins *)

Module TrimFacts.
Import JsFacts Statements2.

Lemma trimStart_split (s : jsstring) :
  exists ws, s = ws ++ trimStart s /\ forallb isWhiteSpace ws = true.
Proof.
  induction s as [|c s (ws & E & Hws)].
  - now exists [].
  - cbn [trimStart]. destruct (isWhiteSpace c) eqn:Hc.
    + exists (c :: ws). split; [cbn; congruence | cbn; now rewrite Hc].
    + now exists [].
Qed.

Lemma trimStart_head (s : jsstring) (c : N) (t : jsstring) :
  trimStart s = c :: t -> isWhiteSpace c = false.
Proof.
  induction s as [|d s IH]; [discriminate|].
  cbn [trimStart]. destruct (isWhiteSpace d) eqn:Hd; [exact IH|].
  now intros [= <- _].
Qed.

Lemma trimStart_fixed (s : jsstring) (c : N) (t : jsstring) :
  s = c :: t -> isWhiteSpace c = false -> trimStart s = s.
Proof. intros -> H. cbn. now rewrite H. Qed.

Lemma trimStart_idem (s : jsstring) : trimStart (trimStart s) = trimStart s.
Proof.
  destruct (trimStart s) as [|c t] eqn:E; [reflexivity|].
  apply (trimStart_fixed _ c t eq_refl). exact (trimStart_head s c t E).
Qed.

Lemma trimStart_whitespace (ws : jsstring) :
  forallb isWhiteSpace ws = true -> trimStart ws = [].
Proof.
  induction ws as [|c ws IH]; [reflexivity|].
  cbn. intros H. apply andb_true_iff in H as [Hc Hws]. now rewrite Hc, IH.
Qed.

Lemma trimEnd_split (s : jsstring) :
  exists ws, s = trimEnd s ++ ws /\ forallb isWhiteSpace ws = true.
Proof.
  unfold trimEnd. destruct (trimStart_split (rev s)) as (ws & E & Hws).
  exists (rev ws). split.
  - rewrite <- rev_app_distr, <- E. now rewrite rev_involutive.
  - rewrite forallb_forall in *. intros x Hx. apply Hws.
    now apply in_rev.
Qed.

Lemma trimEnd_idem (s : jsstring) : trimEnd (trimEnd s) = trimEnd s.
Proof. unfold trimEnd. now rewrite rev_involutive, trimStart_idem. Qed.

(** Trimming the end keeps a start that is already trimmed. *)
Lemma trimStart_trimEnd (s : jsstring) :
  trimStart s = s -> trimStart (trimEnd s) = trimEnd s.
Proof.
  intros Hs. destruct (trimEnd_split s) as (ws & E & Hws).
  destruct (trimEnd s) as [|c t] eqn:Et; [reflexivity|].
  apply (trimStart_fixed _ c t eq_refl).
  rewrite E in Hs. cbn in Hs.
  destruct (isWhiteSpace c) eqn:Hc; [|reflexivity].
  exfalso.
  assert (Hlen : (length (trimStart (t ++ ws)) <= length (t ++ ws))%nat).
  { destruct (trimStart_split (t ++ ws)) as (w & Ew & _).
    rewrite Ew at 2. rewrite length_app. lia. }
  rewrite Hs in Hlen. cbn in Hlen. lia.
Qed.

(** [trim] is idempotent. *)
Lemma trim_idem (s : jsstring) : trim (trim s) = trim s.
Proof.
  unfold trim.
  rewrite (trimStart_trimEnd (trimStart s) (trimStart_idem s)).
  apply trimEnd_idem.
Qed.

Lemma trim_trimmed (s : jsstring) : trimmed (trim s).
Proof. apply trim_idem. Qed.

(** A trimmed string neither starts nor ends with white space. *)
Lemma trimmed_ends (s : jsstring) :
  trimmed s ->
  (forall c t, s = c :: t -> isWhiteSpace c = false)
  /\ (forall c t, s = t ++ [c] -> isWhiteSpace c = false).
Proof.
  unfold trimmed, trim. intros H. split.
  - intros c t ->.
    assert (Hs : trimStart (c :: t) = c :: t).
    { rewrite <- H at 1.
      rewrite (trimStart_trimEnd _ (trimStart_idem _)). exact H. }
    cbn in Hs. destruct (isWhiteSpace c) eqn:Hc; [|reflexivity].
    exfalso.
    destruct (trimStart_split t) as (w & Ew & _).
    apply (f_equal (@length N)) in Hs. rewrite Ew in Hs at 2.
    cbn in Hs. rewrite length_app in Hs. lia.
  - intros c t ->.
    assert (He : trimEnd (t ++ [c]) = t ++ [c]).
    { rewrite <- H at 1. rewrite trimEnd_idem. exact H. }
    unfold trimEnd in He. rewrite rev_app_distr in He. cbn in He.
    destruct (isWhiteSpace c) eqn:Hc; [|reflexivity].
    exfalso.
    destruct (trimStart_split (rev t)) as (w & Ew & _).
    apply (f_equal (@length N)) in He.
    rewrite length_rev, length_app in He. cbn in He.
    apply (f_equal (@length N)) in Ew.
    rewrite length_rev, length_app in Ew. lia.
Qed.

Lemma trim_whitespace (ws : jsstring) :
  forallb isWhiteSpace ws = true -> trim ws = [].
Proof. intros H. unfold trim. now rewrite trimStart_whitespace. Qed.

(** Trimming leaves nothing exactly for white space. *)
Lemma trim_empty_iff (s : jsstring) :
  trim s = [] <-> forallb isWhiteSpace s = true.
Proof.
  split; [|apply trim_whitespace].
  unfold trim. intros H.
  destruct (trimStart_split s) as (w1 & E1 & H1).
  destruct (trimEnd_split (trimStart s)) as (w2 & E2 & H2).
  rewrite H in E2. cbn in E2. rewrite E1, E2.
  rewrite forallb_app. now rewrite H1, H2.
Qed.

End TrimFacts.

(** ** More on event processing (webhook.ts) *)

Module ProcessingProps.
Import Api Webhook JsFacts TrimFacts Statements Statements2 Sample.
Import WebhookProps GateProps ApiProps.

(** The three shapes the trace of an accepted event can take. *)
Lemma gate_shape (api : PluginApi) (now : N) (target : WebhookTarget)
  (a : Accepted) (s : Sender) :
  let run := dispatch (runtime api) now target a s in
  let es := gateAndDispatch api now target a s in
  (policyOf api target <> PolicyPairing /\ es = run)
  \/ (policyOf api target = PolicyPairing
      /\ isAllowed (combinedAllowFrom api target) (senderId s) = true
      /\ es = ReadAllowFromStore channelName :: run)
  \/ (policyOf api target = PolicyPairing
      /\ isAllowed (combinedAllowFrom api target) (senderId s) = false
      /\ exists tail,
           es = ReadAllowFromStore channelName
                  :: UpsertPairingRequest channelName (senderId s)
                                          (senderName s)
                  :: tail
           /\ (tail = [] \/ exists call, tail = [SendMessage call])).
Proof.
  intros run es. subst run es.
  destruct (policyOf api target) eqn:Ep;
    try (left; split; [discriminate | apply gate_not_pairing; congruence]).
  right.
  destruct (isAllowed (combinedAllowFrom api target) (senderId s)) eqn:Ea.
  - left. repeat split. now apply gate_pairing_allowed.
  - right. repeat split. rewrite gate_pairing_pending by assumption.
    eexists. split; [reflexivity|].
    destruct (created _); [right; eexists; reflexivity | now left].
Qed.

Lemma dispatchesOf_deliveries (target : WebhookTarget) (chatId : jsstring)
  (isGroupChat : bool) (payloads : list ReplyPayload) :
  dispatchesOf (flat_map (deliver target chatId isGroupChat) payloads) = [].
Proof.
  induction payloads as [|p ps IH]; [reflexivity|].
  cbn [flat_map]. unfold dispatchesOf in *. rewrite flat_map_app, IH.
  unfold deliver. now destruct (negb _).
Qed.

Lemma dispatchesOf_dispatch (rt : Runtime) (now : N)
  (target : WebhookTarget) (a : Accepted) (s : Sender) :
  dispatchesOf (dispatch rt now target a s)
  = [inboundContext rt now target a s].
Proof.
  unfold dispatch. cbn. unfold dispatchesOf in *.
  now rewrite (dispatchesOf_deliveries target).
Qed.

(** What [deliver] sends for one payload. *)
Lemma sendsOf_deliver (target : WebhookTarget) (chatId : jsstring)
  (isGroupChat : bool) (p : ReplyPayload) (call : SendCall) :
  In call (sendsOf (deliver target chatId isGroupChat p)) ->
  send_creds call = creds target
  /\ send_chatId call = chatId
  /\ send_chatType call = sendChatType isGroupChat
  /\ send_botName call = botName target
  /\ (exists raw, text p = Some raw /\ send_text call = trim raw)
  /\ send_text call <> [].
Proof.
  unfold deliver. destruct (text p) as [raw|]; cbn; [|intros []].
  destruct (trim raw) as [|c r] eqn:E; cbn; [intros []|].
  intros [<- | []]. cbn. repeat split; try discriminate.
  exists raw. now rewrite E.
Qed.

Lemma sendsOf_deliveries (target : WebhookTarget) (chatId : jsstring)
  (isGroupChat : bool) (payloads : list ReplyPayload) (call : SendCall) :
  In call (sendsOf (flat_map (deliver target chatId isGroupChat) payloads)) ->
  exists p, In p payloads
            /\ In call (sendsOf (deliver target chatId isGroupChat p)).
Proof.
  induction payloads as [|p ps IH]; [intros []|].
  cbn [flat_map]. unfold sendsOf in *. rewrite flat_map_app, in_app_iff.
  intros [H | H].
  - exists p. split; [now left | exact H].
  - destruct (IH H) as (q & Hq & Hc). exists q. split; [now right | exact Hc].
Qed.

Lemma length_sendsOf_deliveries (target : WebhookTarget) (chatId : jsstring)
  (isGroupChat : bool) (payloads : list ReplyPayload) :
  (length (sendsOf (flat_map (deliver target chatId isGroupChat) payloads))
   <= length payloads)%nat.
Proof.
  induction payloads as [|p ps IH]; [cbn; lia|].
  cbn [flat_map]. unfold sendsOf in *. rewrite flat_map_app, length_app.
  cbn [length]. unfold deliver at 1. destruct (negb _); cbn; lia.
Qed.

Section Runs.

Variable toLowerCase : jsstring -> jsstring.

(** A message the bot wrote itself is skipped: the filter rejects it and
    the run ends without any effect, whatever else the event, the
    target, the configuration and the plugin state are. *)
Theorem bot_messages_are_dropped (pluginApi : option PluginApi) (now : N)
  (event : ChannelTalkWebhookEvent) (target : WebhookTarget)
  (message : Entity) :
  entity event = Some message ->
  e_personType message = Some (js "bot") ->
  shouldProcess toLowerCase event target = false
  /\ processWebhookEvent toLowerCase pluginApi now event target = dropped.
Proof.
  intros He Hb. apply optIs_true in Hb.
  unfold processWebhookEvent, accept, shouldProcess. rewrite He, Hb.
  now destruct (negb (optIs (ev_type event) (js "Message"))).
Qed.

(** While the plugin API has not been set, no run has any effect: an
    event that passes the checks makes the run fail with the
    not-initialized error, every other event ends quietly. *)
Theorem uninitialised_plugin (now : N) (event : ChannelTalkWebhookEvent)
  (target : WebhookTarget) :
  let o := processWebhookEvent toLowerCase None now event target in
  effects o = []
  /\ (completion o = Returned <-> accept toLowerCase event target = None)
  /\ (completion o = Threw (js "Channel Talk plugin not initialized")
      <-> accept toLowerCase event target <> None).
Proof.
  unfold processWebhookEvent.
  destruct (accept toLowerCase event target) as [a|]; cbn;
    intuition congruence.
Qed.

(** A text that is present but blank hides the blocks: when [plainText]
    is there, the blocks are not read at all, so a message whose
    [plainText] is white space only is dropped even if its blocks carry
    text. *)
Theorem blank_plainText_hides_blocks (pluginApi : option PluginApi)
  (now : N) (event : ChannelTalkWebhookEvent) (target : WebhookTarget)
  (message : Entity) (p : jsstring) :
  entity event = Some message ->
  e_plainText message = Some p ->
  rawBodyOf message = trim p
  /\ (forallb isWhiteSpace p = true ->
      processWebhookEvent toLowerCase pluginApi now event target = dropped).
Proof.
  intros He Hp. unfold rawBodyOf at 1. rewrite Hp. split; [reflexivity|].
  intros Hws. apply trim_whitespace in Hws.
  unfold processWebhookEvent, accept.
  destruct (negb (optIs (ev_type event) (js "Message"))); [reflexivity|].
  rewrite He.
  destruct (optIs (e_personType message) (js "bot")); [reflexivity|].
  destruct (negb (truthy _)); [reflexivity|].
  unfold rawBodyOf. now rewrite Hp, Hws.
Qed.

(** Every event leads to at most one of: an invocation of the agent, a
    pairing request.  Without an invocation of the agent at most one
    message is sent (the pairing message). *)
Theorem one_invocation_or_one_request (pluginApi : option PluginApi)
  (now : N) (event : ChannelTalkWebhookEvent) (target : WebhookTarget) :
  let es := effects (processWebhookEvent toLowerCase pluginApi now
                                         event target) in
  (length (dispatchesOf es) + length (upsertsOf es) <= 1)%nat
  /\ (dispatchesOf es = [] -> (length (sendsOf es) <= 1)%nat).
Proof.
  unfold processWebhookEvent.
  destruct (accept toLowerCase event target) as [a|]; [|cbn; lia].
  destruct pluginApi as [api|]; [|cbn; lia].
  cbn [getChannelTalkApi effects].
  destruct (gate_shape api now target a
              (resolveSender event (a_message a)))
    as [(_ & ->) | [(_ & _ & ->) | (_ & _ & tail & -> & Htail)]].
  - rewrite dispatchesOf_dispatch, upsertsOf_dispatch. cbn.
    split; [lia | discriminate].
  - change (dispatchesOf (ReadAllowFromStore channelName :: ?l))
      with (dispatchesOf l).
    change (upsertsOf (ReadAllowFromStore channelName :: ?l))
      with (upsertsOf l).
    rewrite dispatchesOf_dispatch, upsertsOf_dispatch. cbn.
    split; [lia | discriminate].
  - destruct Htail as [-> | (call & ->)]; cbn; split; lia.
Qed.

(** The context handed to the agent: the five body slots all hold the
    message text, which is non-empty and trimmed; sender and chat appear
    with the channel prefix; the chat kind is [channel] with a group
    subject for a group chat and [direct] without one otherwise. *)
Theorem inbound_context_fields (api : PluginApi) (now : N)
  (event : ChannelTalkWebhookEvent) (target : WebhookTarget)
  (ctx : InboundContext) :
  In ctx (dispatchesOf (effects (processWebhookEvent toLowerCase (Some api)
                                   now event target))) ->
  exists message,
    entity event = Some message
    /\ Body ctx = rawBodyOf message
    /\ RawBody ctx = Body ctx /\ CommandBody ctx = Body ctx
    /\ BodyForAgent ctx = Body ctx /\ BodyForCommands ctx = Body ctx
    /\ Body ctx <> [] /\ trimmed (Body ctx)
    /\ From ctx
       = js "channel-talk:" ++ senderId (resolveSender event message)
    /\ (exists chatId,
          resolvedChatId event message = Some chatId /\ chatId <> []
          /\ To ctx = js "channel-talk:" ++ chatId
          /\ OriginatingTo ctx = To ctx
          /\ (e_chatType message = Some (js "group") ->
              ChatType ctx = js "channel"
              /\ GroupSubject ctx = Some (js "team-chat:" ++ chatId)))
    /\ (e_chatType message <> Some (js "group") ->
        ChatType ctx = js "direct" /\ GroupSubject ctx = None)
    /\ AccountId ctx = accountId target.
Proof.
  unfold processWebhookEvent.
  destruct (accept toLowerCase event target) as [a|] eqn:Ha; [|intros []].
  cbn [getChannelTalkApi effects].
  set (s := resolveSender event (a_message a)).
  assert (Hctx : In ctx (dispatchesOf (gateAndDispatch api now target a s))
                 -> ctx = inboundContext (runtime api) now target a s).
  { destruct (gate_shape api now target a s)
      as [(_ & ->) | [(_ & _ & ->) | (_ & _ & tail & -> & Htail)]].
    - rewrite dispatchesOf_dispatch. now intros [<- | []].
    - change (dispatchesOf (ReadAllowFromStore channelName :: ?l))
        with (dispatchesOf l).
      rewrite dispatchesOf_dispatch. now intros [<- | []].
    - destruct Htail as [-> | (call & ->)]; intros []. }
  intros Hin. specialize (Hctx Hin). subst ctx.
  apply accept_inv in Ha
    as (_ & Hm & _ & Hc & Hne & Hraw & Hrne & Hgroup).
  exists (a_message a). cbn.
  split; [exact Hm|]. split; [exact Hraw|].
  repeat (split; [reflexivity|]). split; [exact Hrne|].
  split.
  { rewrite Hraw. unfold rawBodyOf.
    destruct (e_plainText (a_message a)); apply trim_trimmed. }
  split; [reflexivity|]. split.
  - exists (a_chatId a). split; [exact Hc|]. split; [exact Hne|].
    repeat (split; [reflexivity|]).
    intros Hg. rewrite Hgroup, Hg. cbn [default]. rewrite strEq_refl.
    split; reflexivity.
  - split; [|reflexivity]. intros Hg. rewrite Hgroup.
    destruct (e_chatType (a_message a)) as [ct|] eqn:Ect;
      cbn [default from_option id].
    + destruct (strEq ct (js "group")) eqn:E.
      * apply strEq_true in E. congruence.
      * split; reflexivity.
    + split; reflexivity.
Qed.

(** Once the agent is invoked, every message sent in the run is a reply
    of the agent: it goes to the chat of the event, through the group
    variant exactly for a group chat, with the credentials and bot name
    of the target; its text is a delivered payload, trimmed, and never
    empty.  There are at most as many of them as payloads. *)
Theorem replies_follow_the_chat (api : PluginApi) (now : N)
  (event : ChannelTalkWebhookEvent) (target : WebhookTarget) (a : Accepted) :
  accept toLowerCase event target = Some a ->
  let o := processWebhookEvent toLowerCase (Some api) now event target in
  invokesPipeline (effects o) = true ->
  let ctx := inboundContext (runtime api) now target a
               (resolveSender event (a_message a)) in
  (forall call, In call (sendsOf (effects o)) ->
     send_chatId call = a_chatId a
     /\ send_chatType call = sendChatType (a_isGroupChat a)
     /\ send_creds call = creds target
     /\ send_botName call = botName target
     /\ send_text call <> []
     /\ exists p raw, In p (replyPayloads (runtime api) ctx)
                      /\ text p = Some raw /\ send_text call = trim raw)
  /\ (length (sendsOf (effects o))
      <= length (replyPayloads (runtime api) ctx))%nat.
Proof.
  intros Ha o Hinv ctx. subst o.
  rewrite (process_accepted toLowerCase api now event target a Ha) in *.
  cbn [effects] in *.
  set (s := resolveSender event (a_message a)) in *.
  assert (Hs : sendsOf (gateAndDispatch api now target a s)
               = sendsOf (flat_map (deliver target (a_chatId a)
                                            (a_isGroupChat a))
                                   (replyPayloads (runtime api) ctx))).
  { destruct (gate_shape api now target a s)
      as [(_ & E) | [(_ & _ & E) | (_ & _ & tail & E & Htail)]];
      rewrite E in *; try reflexivity.
    destruct Htail as [-> | (call & ->)]; discriminate Hinv. }
  rewrite Hs. split; [|apply length_sendsOf_deliveries].
  intros call Hin.
  apply sendsOf_deliveries in Hin as (p & Hp & Hin).
  apply sendsOf_deliver in Hin as (Hc & Hid & Ht & Hb & (raw & Hr & Htxt) & Hne).
  repeat (split; [assumption|]). now exists p, raw.
Qed.

(** With the wildcard entry on either allow list, the pairing policy
    lets every sender through: the agent is invoked and no pairing
    request is made. *)
Theorem wildcard_allows_everyone (api : PluginApi) (now : N)
  (event : ChannelTalkWebhookEvent) (target : WebhookTarget) (a : Accepted) :
  accept toLowerCase event target = Some a ->
  policyOf api target = PolicyPairing ->
  In [42] (combinedAllowFrom api target) ->
  let o := processWebhookEvent toLowerCase (Some api) now event target in
  invokesPipeline (effects o) = true
  /\ upsertsOf (effects o) = []
  /\ dispatchesOf (effects o)
     = [inboundContext (runtime api) now target a
          (resolveSender event (a_message a))].
Proof.
  intros Ha Hp Hstar o. subst o.
  rewrite (process_accepted toLowerCase api now event target a Ha).
  cbn [effects].
  assert (Hal : isAllowed (combinedAllowFrom api target)
                  (senderId (resolveSender event (a_message a))) = true).
  { apply isAllowed_member. now right. }
  rewrite gate_pairing_allowed by assumption.
  split; [reflexivity|].
  change (upsertsOf (ReadAllowFromStore channelName :: ?l))
    with (upsertsOf l).
  change (dispatchesOf (ReadAllowFromStore channelName :: ?l))
    with (dispatchesOf l).
  now rewrite upsertsOf_dispatch, dispatchesOf_dispatch.
Qed.

End Runs.

Lemma bot_messages_are_dropped_witness :
  processWebhookEvent asciiLower (Some (sampleApi (Some PolicyOpen) [] [] true))
    5 botEcho (sampleTarget []) = dropped.
Proof.
  exact (proj2 (bot_messages_are_dropped asciiLower _ 5 botEcho
                  (sampleTarget []) _ eq_refl eq_refl)).
Defined.

Lemma blank_plainText_hides_blocks_witness :
  processWebhookEvent asciiLower (Some (sampleApi (Some PolicyOpen) [] [] true))
    5 blankWithBlocks (sampleTarget []) = dropped.
Proof.
  exact (proj2 (blank_plainText_hides_blocks asciiLower _ 5 blankWithBlocks
                  (sampleTarget []) _ (js "  ") eq_refl eq_refl) eq_refl).
Defined.

Lemma inbound_context_fields_witness :
  exists ctx,
    dispatchesOf (effects (processWebhookEvent asciiLower
                             (Some (sampleApi (Some PolicyOpen) [] [] true))
                             5 directHello (sampleTarget []))) = [ctx]
    /\ Body ctx = js "hello"
    /\ BodyForAgent ctx = Body ctx
    /\ AccountId ctx = js "default".
Proof.
  eexists. split; [reflexivity|].
  destruct (inbound_context_fields asciiLower
              (sampleApi (Some PolicyOpen) [] [] true) 5 directHello
              (sampleTarget []) _ (or_introl eq_refl))
    as (message & He & Hb & _ & _ & Ha & _ & _ & _ & _ & _ & _ & Hacc).
  injection He as <-. split; [exact Hb|]. split; [exact Ha | exact Hacc].
Defined.

Lemma replies_follow_the_chat_witness :
  let o := processWebhookEvent asciiLower
             (Some (sampleApi (Some PolicyOpen) [] [] true))
             5 directHello (sampleTarget []) in
  exists call,
    sendsOf (effects o) = [call]
    /\ send_chatId call = js "C1"
    /\ send_chatType call = SendUserChat.
Proof.
  eexists. split; [reflexivity|].
  destruct (replies_follow_the_chat asciiLower
              (sampleApi (Some PolicyOpen) [] [] true) 5 directHello
              (sampleTarget []) _ eq_refl eq_refl) as (H & _).
  destruct (H _ (or_introl eq_refl)) as (Hid & Ht & _).
  split; [exact Hid | exact Ht].
Defined.

Lemma wildcard_allows_everyone_witness :
  let o := processWebhookEvent asciiLower
             (Some (sampleApi None [] [[42]] true))
             5 anonymousManager (sampleTarget []) in
  invokesPipeline (effects o) = true /\ upsertsOf (effects o) = [].
Proof.
  destruct (wildcard_allows_everyone asciiLower
              (sampleApi None [] [[42]] true) 5 anonymousManager
              (sampleTarget []) _ eq_refl eq_refl (or_introl eq_refl))
    as (Hi & Hu & _).
  split; [exact Hi | exact Hu].
Defined.

End ProcessingProps.

(** ** More on markdown and block conversion (api.ts) *)

Module BlockProps.
Import Api JsFacts TrimFacts Statements Statements2 ApiProps.

Lemma split_no_sep (sep : N) (s : jsstring) :
  forallb (fun c => negb (c =? sep)) s = true -> split sep s = [s].
Proof.
  induction s as [|c s IH]; [reflexivity|].
  cbn. intros H. apply andb_true_iff in H as [Hc Hs].
  apply negb_true_iff in Hc. now rewrite Hc, (IH Hs).
Qed.

Lemma split_app_sep (sep : N) (s r : jsstring) :
  forallb (fun c => negb (c =? sep)) s = true ->
  split sep (s ++ sep :: r) = s :: split sep r.
Proof.
  induction s as [|c s IH]; cbn.
  - intros _. now rewrite N.eqb_refl.
  - intros H. apply andb_true_iff in H as [Hc Hs].
    apply negb_true_iff in Hc. now rewrite Hc, (IH Hs).
Qed.

(** Joining lines and splitting again gives the lines back. *)
Lemma split_join (sep : N) (lines : list jsstring) :
  lines <> [] ->
  Forall (fun l => forallb (fun c => negb (c =? sep)) l = true) lines ->
  split sep (join [sep] lines) = lines.
Proof.
  intros Hne Hall. induction Hall as [|x rest Hx Hrest IH]; [done|].
  destruct rest as [|y rest].
  - cbn. now apply split_no_sep.
  - rewrite join_cons_cons. cbn [app].
    rewrite split_app_sep by assumption. f_equal. apply IH. discriminate.
Qed.

Lemma markdownToBlocks_lines (text : jsstring) :
  markdownToBlocks text
  = match blocksOfLines (split 10 text) with
    | [] => [TextBlock text]
    | bs => bs
    end.
Proof. reflexivity. Qed.

(** Inside a fence, lines without a fence marker pile up in [codeLines]. *)
Lemma fold_mdStep_code (lines : list jsstring) (st : MdState) :
  Forall (fun line => fenceMatch line = None) lines ->
  inCode st = true ->
  fold_left mdStep lines st =
  {| blocks := blocks st; inCode := true; codeLang := codeLang st;
     codeLines := codeLines st ++ lines; textLines := textLines st |}.
Proof.
  intros Hlines. revert st.
  induction Hlines as [|line lines Hline _ IH]; intros st Hst.
  - destruct st; simpl in *. subst. now rewrite app_nil_r.
  - cbn [fold_left]. rewrite IH.
    + unfold mdStep. rewrite Hline, Hst. cbn.
      now rewrite <- app_assoc.
    + unfold mdStep. now rewrite Hline, Hst.
Qed.

Lemma fenceMatch_fenceLine (lang : jsstring) :
  forallb isWordChar lang = true -> fenceMatch (fenceLine lang) = Some lang.
Proof.
  intros H. unfold fenceLine. change (js "```") with [96; 96; 96].
  cbn. now rewrite H.
Qed.

Lemma plainLines_Forall (lines : list jsstring) :
  plainLines lines = true ->
  Forall (fun line => fenceMatch line = None) lines.
Proof.
  unfold plainLines. rewrite forallb_forall, List.Forall_forall.
  intros H line Hin. specialize (H line Hin).
  now destruct (fenceMatch line).
Qed.

Lemma flushText_blocks (st : MdState) :
  flushText st
  = {| blocks := blocks st ++ textBlockOf (textLines st);
       inCode := inCode st; codeLang := codeLang st;
       codeLines := codeLines st; textLines := [] |}.
Proof.
  destruct st as [bs ic cl cls tls]. unfold flushText, textBlockOf. cbn.
  destruct tls as [|l ls]; [now rewrite app_nil_r|].
  destruct (nonEmpty _); [reflexivity | now rewrite app_nil_r].
Qed.

Lemma flushCode_blocks (st : MdState) :
  blocks (flushCode st)
  = blocks st ++ codeBlockOf (codeLang st) (codeLines st)
  /\ codeLines (flushCode st) = []
  /\ textLines (flushCode st) = textLines st
  /\ inCode (flushCode st) = inCode st.
Proof.
  destruct st as [bs ic cl cls tls]. unfold flushCode, codeBlockOf. cbn.
  destruct cls as [|l ls]; cbn; [now rewrite app_nil_r | repeat split].
Qed.

Lemma mdStep_open (st : MdState) (lang : jsstring) :
  inCode st = false -> forallb isWordChar lang = true ->
  mdStep st (fenceLine lang)
  = {| blocks := blocks st ++ textBlockOf (textLines st);
       inCode := true; codeLang := lang;
       codeLines := codeLines st; textLines := [] |}.
Proof.
  intros Hst Hlang. unfold mdStep.
  rewrite (fenceMatch_fenceLine lang Hlang), Hst. cbn [negb].
  now rewrite flushText_blocks.
Qed.

Lemma mdStep_close (st : MdState) (lang : jsstring) :
  inCode st = true -> forallb isWordChar lang = true ->
  mdStep st (fenceLine lang)
  = {| blocks := blocks st ++ codeBlockOf (codeLang st) (codeLines st);
       inCode := false; codeLang := codeLang (flushCode st);
       codeLines := []; textLines := textLines st |}.
Proof.
  intros Hst Hlang. unfold mdStep.
  rewrite (fenceMatch_fenceLine lang Hlang), Hst. cbn [negb].
  destruct (flushCode_blocks st) as (Hb & Hc & Ht & _).
  now rewrite Hb, Hc, Ht.
Qed.

(** The state after the lines before a fence, the opening fence and the
    lines inside it. *)
Lemma fold_into_fence (pre code : list jsstring) (lang : jsstring) :
  plainLines pre = true -> plainLines code = true ->
  forallb isWordChar lang = true ->
  fold_left mdStep (pre ++ fenceLine lang :: code) mdInit
  = {| blocks := textBlockOf pre; inCode := true; codeLang := lang;
       codeLines := code; textLines := [] |}.
Proof.
  intros Hpre Hcode Hlang.
  rewrite fold_left_app.
  rewrite (fold_mdStep_text pre mdInit (plainLines_Forall _ Hpre) eq_refl).
  cbn [fold_left]. rewrite mdStep_open by easy.
  rewrite fold_mdStep_code by (try apply plainLines_Forall; easy).
  reflexivity.
Qed.

Lemma blocksOfLines_fenced (pre code post : list jsstring)
  (lang lang' : jsstring) :
  plainLines pre = true -> plainLines code = true ->
  plainLines post = true ->
  forallb isWordChar lang = true -> forallb isWordChar lang' = true ->
  blocksOfLines (pre ++ fenceLine lang :: code ++ fenceLine lang' :: post)
  = textBlockOf pre ++ codeBlockOf lang code ++ textBlockOf post.
Proof.
  intros Hpre Hcode Hpost Hlang Hlang'. unfold blocksOfLines.
  replace (pre ++ fenceLine lang :: code ++ fenceLine lang' :: post)
    with ((pre ++ fenceLine lang :: code) ++ fenceLine lang' :: post)
    by (now rewrite <- app_assoc).
  rewrite fold_left_app, (fold_into_fence pre code lang) by assumption.
  cbn [fold_left]. rewrite mdStep_close by easy.
  rewrite fold_mdStep_text by (try apply plainLines_Forall; easy).
  cbn [inCode]. rewrite flushText_blocks.
  cbn [blocks textLines codeLang codeLines app].
  now rewrite <- app_assoc.
Qed.

Lemma singleLines_Forall (lines : list jsstring) :
  singleLines lines = true ->
  Forall (fun l => forallb (fun c => negb (c =? 10)) l = true) lines.
Proof.
  unfold singleLines, singleLine. rewrite forallb_forall.
  intros H. apply List.Forall_forall. exact H.
Qed.

(** A fenced block between plain text: the lines before the fence
    become one trimmed text block (none if they are blank), the lines
    inside it one code block holding them verbatim, tagged with the
    language of the opening fence (none for an empty fence), and the
    lines after the closing fence one more text block.  Any fence line
    closes the block, whatever tag it carries. *)
Theorem fenced_block (pre code post : list jsstring) (lang lang' : jsstring) :
  plainLines pre = true -> plainLines code = true ->
  plainLines post = true ->
  forallb isWordChar lang = true -> forallb isWordChar lang' = true ->
  let lines := pre ++ fenceLine lang :: code ++ fenceLine lang' :: post in
  blocksOfLines lines
  = textBlockOf pre ++ codeBlockOf lang code ++ textBlockOf post
  /\ (singleLines lines = true -> code <> [] ->
      markdownToBlocks (join nl lines)
      = textBlockOf pre ++ codeBlockOf lang code ++ textBlockOf post).
Proof.
  intros Hpre Hcode Hpost Hlang Hlang' lines.
  pose proof (blocksOfLines_fenced pre code post lang lang'
                Hpre Hcode Hpost Hlang Hlang') as Hlines.
  split; [exact Hlines|].
  intros Hsingle Hne. rewrite markdownToBlocks_lines.
  change nl with [10]. rewrite split_join.
  - fold lines in Hlines. rewrite Hlines. destruct code as [|l ls]; [done|].
    destruct (textBlockOf pre); reflexivity.
  - subst lines. now destruct pre.
  - now apply singleLines_Forall.
Qed.

(** A fence that is never closed: everything after the opening fence
    becomes one code block, and an opening fence on the last line
    leaves no block at all. *)
Theorem unclosed_fence (pre code : list jsstring) (lang : jsstring) :
  plainLines pre = true -> plainLines code = true ->
  forallb isWordChar lang = true ->
  blocksOfLines (pre ++ fenceLine lang :: code)
  = textBlockOf pre ++ codeBlockOf lang code.
Proof.
  intros Hpre Hcode Hlang. unfold blocksOfLines.
  rewrite (fold_into_fence pre code lang) by assumption. cbn [inCode].
  rewrite flushText_blocks.
  match goal with |- context [flushCode ?st] =>
    destruct (flushCode_blocks st) as (Hb & _ & Ht & _);
    rewrite Hb, Ht; cbn [blocks codeLang codeLines textLines] end.
  unfold textBlockOf at 2. now rewrite app_nil_r.
Qed.

Lemma fenced_block_witness :
  markdownToBlocks (join nl [js "Run this:"; js "```sh"; js "ls -l";
                             js "```"; js " done "])
  = [TextBlock (js "Run this:"); CodeBlock (js "ls -l") (Some (js "sh"));
     TextBlock (js "done")].
Proof.
  exact (proj2 (fenced_block [js "Run this:"] [js "ls -l"] [js " done "]
                  (js "sh") [] eq_refl eq_refl eq_refl eq_refl eq_refl)
               eq_refl ltac:(discriminate)).
Defined.

Lemma unclosed_fence_witness :
  blocksOfLines [js "see"; js "```"; js "a"; js "b"]
  = [TextBlock (js "see"); CodeBlock (js "a" ++ [10] ++ js "b") None].
Proof.
  exact (unclosed_fence [js "see"] [js "a"; js "b"] []
                        eq_refl eq_refl eq_refl).
Defined.

Lemma textValues_app (a b : list MessageBlock) :
  textValues (a ++ b) = textValues a ++ textValues b.
Proof. unfold textValues. apply flat_map_app. Qed.

Lemma goodTexts_textBlockOf (bs : list MessageBlock) (ls : list jsstring) :
  goodTexts bs -> goodTexts (bs ++ textBlockOf ls).
Proof.
  unfold goodTexts. rewrite textValues_app. intros H.
  apply Forall_app. split; [assumption|].
  unfold textBlockOf. destruct ls as [|l ls]; [constructor|].
  destruct (trim (join nl (l :: ls))) as [|c r] eqn:E; cbn; constructor;
    [|constructor].
  split; [discriminate|]. rewrite <- E. apply trim_trimmed.
Qed.

Lemma goodTexts_codeBlockOf (bs : list MessageBlock) (lang : jsstring)
  (ls : list jsstring) :
  goodTexts bs -> goodTexts (bs ++ codeBlockOf lang ls).
Proof.
  unfold goodTexts. rewrite textValues_app. intros H.
  apply Forall_app. split; [assumption|].
  unfold codeBlockOf. destruct ls; constructor.
Qed.

Lemma goodTexts_mdStep (st : MdState) (line : jsstring) :
  goodTexts (blocks st) -> goodTexts (blocks (mdStep st line)).
Proof.
  intros H. unfold mdStep.
  destruct (fenceMatch line) as [lang|].
  - destruct (inCode st); cbn [negb blocks].
    + destruct (flushCode_blocks st) as (Hb & _). rewrite Hb.
      now apply goodTexts_codeBlockOf.
    + rewrite flushText_blocks. cbn [blocks].
      now apply goodTexts_textBlockOf.
  - now destruct (inCode st).
Qed.

Lemma goodTexts_fold (lines : list jsstring) (st : MdState) :
  goodTexts (blocks st) -> goodTexts (blocks (fold_left mdStep lines st)).
Proof.
  revert st. induction lines as [|l ls IH]; intros st H; [exact H|].
  cbn [fold_left]. apply IH. now apply goodTexts_mdStep.
Qed.

(** [markdownToBlocks] never returns an empty list, and unless the
    result is the fallback block holding the whole input, each of its
    text blocks is non-empty and carries no white space at either end. *)
Theorem text_blocks_are_trimmed (text : jsstring) :
  markdownToBlocks text <> []
  /\ (markdownToBlocks text = [TextBlock text]
      \/ forall v, In (TextBlock v) (markdownToBlocks text) ->
                   v <> [] /\ trimmed v).
Proof.
  rewrite markdownToBlocks_lines.
  assert (Hgood : goodTexts (blocksOfLines (split 10 text))).
  { unfold blocksOfLines. rewrite flushText_blocks. cbn [blocks].
    apply goodTexts_textBlockOf.
    pose proof (goodTexts_fold (split 10 text) mdInit) as Hf.
    destruct (inCode (fold_left mdStep (split 10 text) mdInit)).
    - match goal with |- context [flushCode ?st] =>
        destruct (flushCode_blocks st) as (Hb & _); rewrite Hb end.
      apply goodTexts_codeBlockOf, Hf. constructor.
    - apply Hf. constructor. }
  destruct (blocksOfLines (split 10 text)) as [|b bs] eqn:E.
  - split; [discriminate | now left].
  - split; [discriminate | right]. intros v Hin.
    unfold goodTexts in Hgood. rewrite List.Forall_forall in Hgood.
    apply Hgood. unfold textValues. apply in_flat_map.
    exists (TextBlock v). split; [exact Hin | now left].
Qed.

Lemma stripFrom_drop (k : nat) (s : jsstring) :
  stripFrom k s = stripTags (drop k s).
Proof.
  revert k. induction s as [|c s IH]; intros k.
  - now destruct k.
  - destruct k as [|k]; [reflexivity|]. cbn [stripFrom drop]. apply IH.
Qed.

Lemma stripFrom_subset (k : nat) (s : jsstring) (x : N) :
  In x (stripFrom k s) -> In x s.
Proof.
  revert k. induction s as [|c s IH]; intros k; [now destruct k|].
  destruct k as [|k]; cbn [stripFrom].
  - destruct (c =? 60).
    + destruct (indexOfGt s) as [[|n]|].
      * intros [-> | H]; [now left | right; exact (IH _ H)].
      * intros H. right. exact (IH _ H).
      * intros [-> | H]; [now left | right; exact (IH _ H)].
    + intros [-> | H]; [now left | right; exact (IH _ H)].
  - intros H. right. exact (IH _ H).
Qed.

Lemma indexOfGt_None (s : jsstring) :
  indexOfGt s = None <-> ~ In 62 s.
Proof.
  induction s as [|c s IH]; cbn.
  - split; [intros _ [] | reflexivity].
  - destruct (N.eqb_spec c 62) as [-> | Hc].
    + split; [discriminate | intros H; exfalso; apply H; now left].
    + destruct (indexOfGt s); cbn.
      * split; [discriminate|]. intros H. exfalso.
        destruct IH as [_ IH]. 
        assert (Hn : ~ In 62 s) by (intros Hin; apply H; now right).
        specialize (IH Hn). discriminate.
      * split; [|reflexivity]. intros _ [H | H]; [congruence|].
        now apply (proj1 IH).
Qed.

(** Stripping tags leaves nothing to strip: the pattern finds no tag in
    its own output. *)
Theorem stripTags_idempotent (s : jsstring) :
  stripTags (stripTags s) = stripTags s.
Proof.
  assert (Hbounded : forall (n : nat) (s : jsstring),
            (length s <= n)%nat -> stripTags (stripTags s) = stripTags s).
  { clear s. intros n.
    induction n as [|n IH]; intros s Hlen.
    - destruct s; [reflexivity | cbn in Hlen; lia].
    - destruct s as [|c s]; [reflexivity|]. cbn in Hlen.
      assert (Hs : (length s <= n)%nat) by lia.
      unfold stripTags at 2 3. cbn [stripFrom].
      destruct (c =? 60) eqn:Hc.
      + destruct (indexOfGt s) as [[|m]|] eqn:E.
        * destruct s as [|d s]; [discriminate|]. cbn in E.
          destruct (d =? 62) eqn:Hd; [|now destruct (indexOfGt s)].
          fold (stripTags (d :: s)).
          unfold stripTags at 1. cbn [stripFrom]. rewrite Hc.
          assert (E2 : indexOfGt (stripTags (d :: s)) = Some O).
          { unfold stripTags. cbn [stripFrom].
            apply N.eqb_eq in Hd. subst d. cbn. reflexivity. }
          rewrite E2. fold (stripTags (stripTags (d :: s))).
          now rewrite IH.
        * rewrite stripFrom_drop. apply IH.
          rewrite length_drop. lia.
        * fold (stripTags s). unfold stripTags at 1. cbn [stripFrom].
          rewrite Hc.
          assert (E2 : indexOfGt (stripTags s) = None).
          { apply indexOfGt_None. intros Hin.
            apply stripFrom_subset in Hin. now apply indexOfGt_None in E. }
          rewrite E2. fold (stripTags (stripTags s)). now rewrite IH.
      + fold (stripTags s). unfold stripTags at 1. cbn [stripFrom].
        rewrite Hc. fold (stripTags (stripTags s)). now rewrite IH. }
  apply (Hbounded (length s)). lia.
Qed.

End BlockProps.

(** ** Round trips through both conversions *)

Module RoundTripProps.
Import Api Webhook JsFacts TrimFacts Statements Statements2.
Import ApiProps BlockProps.

Lemma split_app (sep : N) (a b : jsstring) :
  split sep (a ++ sep :: b) = split sep a ++ split sep b.
Proof.
  induction a as [|c a IH]; cbn.
  - now rewrite N.eqb_refl.
  - destruct (c =? sep); [now rewrite IH|].
    rewrite IH. destruct (split_cons sep a) as (l & ls & E). now rewrite E.
Qed.

Lemma split_single_lines (sep : N) (s : jsstring) :
  Forall (fun l => forallb (fun c => negb (c =? sep)) l = true) (split sep s).
Proof.
  induction s as [|c s IH]; cbn.
  - repeat constructor.
  - destruct (c =? sep) eqn:Hc; [constructor; [reflexivity | assumption]|].
    destruct (split_cons sep s) as (l & ls & E). rewrite E in *.
    inversion IH as [|x xs Hx Hxs]; subst. constructor; [|assumption].
    cbn. now rewrite Hc.
Qed.

Lemma Forall_trim (P : N -> Prop) (s : jsstring) :
  Forall P s -> Forall P (trim s).
Proof.
  intros H. unfold trim.
  destruct (trimStart_split s) as (w1 & E1 & _).
  destruct (trimEnd_split (trimStart s)) as (w2 & E2 & _).
  rewrite E1 in H. apply Forall_app in H as [_ H].
  rewrite E2 in H. now apply Forall_app in H as [H _].
Qed.

(** A code block survives the way out and back, except for its
    language tag: rendering it with [blocksToText] and converting the
    text again gives the same code, untagged. *)
Theorem code_block_round_trip (v : jsstring) (lang : option jsstring) :
  v <> [] ->
  plainLines (split 10 v) = true ->
  blocksToText [toWire (CodeBlock v lang)]
  = js "```" ++ [10] ++ v ++ [10] ++ js "```"
  /\ markdownToBlocks (blocksToText [toWire (CodeBlock v lang)])
     = [CodeBlock v None].
Proof.
  intros Hv Hplain.
  assert (Htext : blocksToText [toWire (CodeBlock v lang)]
                  = js "```" ++ [10] ++ v ++ [10] ++ js "```").
  { unfold blocksToText, blockParts. cbn.
    destruct v as [|c v]; [done|]. cbn. now rewrite app_nil_r. }
  split; [exact Htext|]. rewrite Htext, markdownToBlocks_lines.
  cbn [app]. rewrite split_app, split_app.
  change (split 10 (js "```")) with [fenceLine []].
  pose proof (blocksOfLines_fenced [] (split 10 v) [] [] []
                eq_refl Hplain eq_refl eq_refl eq_refl) as H.
  cbn [app] in H |- *. rewrite H.
  destruct (split_cons 10 v) as (l & ls & E).
  unfold codeBlockOf, textBlockOf. rewrite E, <- E. cbn.
  change nl with [10]. now rewrite join_split.
Qed.

Lemma code_block_round_trip_witness :
  markdownToBlocks
    (blocksToText [toWire (CodeBlock (js "x = 1" ++ [10] ++ js "y = 2")
                                     (Some (js "py")))])
  = [CodeBlock (js "x = 1" ++ [10] ++ js "y = 2") None].
Proof.
  refine (proj2 (code_block_round_trip
                   (js "x = 1" ++ [10] ++ js "y = 2") (Some (js "py"))
                   _ eq_refl)).
  discriminate.
Defined.

(** What the plugin formats on the way out it reads back on the way in:
    a message that carries no [plainText] but the blocks made from a
    fence-free, tag-free text has that text, trimmed, as its body. *)
Theorem formatted_text_reads_back (message : Entity) (t : jsstring) :
  e_plainText message = None ->
  e_blocks message = Some (map toWire (markdownToBlocks t)) ->
  fenceFree t = true ->
  Forall (fun c => c <> 60) t ->
  rawBodyOf message = trim t.
Proof.
  intros Hp Hb Hfree Hplain. unfold rawBodyOf. rewrite Hp, Hb.
  rewrite (markdownToBlocks_plain t Hfree). cbn [map].
  rewrite blocksToText_text.
  destruct (trim t) as [|c r] eqn:E; cbn [nonEmpty].
  - rewrite stripTags_plain by assumption. exact E.
  - rewrite stripTags_plain.
    + rewrite <- E. apply trim_idem.
    + rewrite <- E. now apply Forall_trim.
Qed.

Lemma formatted_text_reads_back_witness :
  rawBodyOf (blocksOnly (js " a > b ")) = js "a > b".
Proof.
  refine (formatted_text_reads_back (blocksOnly (js " a > b "))
            (js " a > b ") eq_refl eq_refl eq_refl _).
  vm_compute. repeat constructor; discriminate.
Defined.

End RoundTripProps.

(** ** More on the HTTP boundary (webhook.ts, function.ts) *)

Module HttpProps.
Import Api Webhook WebhookHandler FunctionEndpoint.
Import JsFacts Statements Statements2 Sample BlockProps HandlerProps.

Lemma totalBytes_cons (chunk : list Byte.byte) (rest : list (list Byte.byte)) :
  totalBytes (chunk :: rest) = N.of_nat (length chunk) + totalBytes rest.
Proof.
  unfold totalBytes. cbn [concat]. rewrite length_app. lia.
Qed.

(** The [data] listener gives up exactly when the whole body is over
    the cap; otherwise it has collected the chunks in order. *)
Lemma readChunks_total (maxBytes seen : N) (chunks : list (list Byte.byte))
  (acc : list Byte.byte) :
  seen <= maxBytes ->
  readChunks maxBytes seen chunks acc
  = if maxBytes <? seen + totalBytes chunks then None
    else Some (acc ++ concat chunks).
Proof.
  revert seen acc. induction chunks as [|chunk rest IH]; intros seen acc Hs.
  - cbn. unfold totalBytes. cbn. rewrite N.add_0_r, app_nil_r.
    apply N.ltb_ge in Hs. now rewrite Hs.
  - cbn [readChunks concat]. rewrite totalBytes_cons.
    destruct (maxBytes <? seen + N.of_nat (length chunk)) eqn:E.
    + apply N.ltb_lt in E.
      assert (H : (maxBytes <? seen + (N.of_nat (length chunk)
                                       + totalBytes rest)) = true)
        by (apply N.ltb_lt; lia).
      now rewrite H.
    + apply N.ltb_ge in E. rewrite IH by assumption.
      now rewrite N.add_assoc, app_assoc.
Qed.

Section Boundary.

Variable toLowerCase : jsstring -> jsstring.
Variable parseW : list Byte.byte -> option (Json ChannelTalkWebhookEvent).
Variable parseF : list Byte.byte -> option (Json ChannelTalkFunctionRequest).

(** The size cap of [readJsonBody]: a body of more than [maxBytes] bytes
    is refused as too large, whatever it holds and however the stream
    ends; a body of at most [maxBytes] bytes (the cap itself included)
    is parsed as the concatenation of its chunks when the stream ends,
    and is a read error when the stream fails. *)
Theorem body_size_cap {T} (parse : list Byte.byte -> option (Json T))
  (req : IncomingMessage) (maxBytes : N) :
  (maxBytes < totalBytes (req_chunks req) ->
   readJsonBody parse req maxBytes = inr payload_too_large)
  /\ (totalBytes (req_chunks req) <= maxBytes ->
      readJsonBody parse req maxBytes
      = match req_close req with
        | StreamEnd =>
            match parse (concat (req_chunks req)) with
            | Some data => inl data
            | None => inr invalid_json
            end
        | StreamError => inr read_error
        end).
Proof.
  unfold readJsonBody.
  rewrite readChunks_total by lia. rewrite N.add_0_l. split; intros H.
  - apply N.ltb_lt in H. now rewrite H.
  - apply N.ltb_ge in H. now rewrite H.
Qed.

(** A background task is started exactly for the requests answered with
    status 200, by either handler; a handler answers exactly the
    requests it owns, and it owns exactly the paths that start with its
    prefix. *)
Theorem acknowledged_iff_processing
  (webhookTargets : gmap jsstring WebhookTarget)
  (functionTargets : gmap jsstring FunctionTarget)
  (pluginApi : option PluginApi) (now : N) (req : IncomingMessage) :
  let w := handleChannelTalkWebhook toLowerCase parseW webhookTargets
             pluginApi now req in
  let f := handleChannelTalkFunction toLowerCase parseF functionTargets
             pluginApi now req in
  (background w <> None <-> statusCode <$> response w = Some 200)
  /\ (background f <> None <-> statusCode <$> response f = Some 200)
  /\ (response w <> None <-> owned w = true)
  /\ (response f <> None <-> owned f = true)
  /\ owned w = startsWith (req_pathname req) WEBHOOK_PREFIX
  /\ owned f = startsWith (req_pathname req) FUNCTION_PREFIX.
Proof.
  unfold handleChannelTalkWebhook, handleChannelTalkFunction.
  destruct (startsWith (req_pathname req) WEBHOOK_PREFIX);
    destruct (startsWith (req_pathname req) FUNCTION_PREFIX);
    cbn [negb];
    destruct (negb (optIs (req_method req) (js "POST")));
    destruct (negb (optIs (req_method req) (js "PUT")));
    try destruct (webhookTargets !! _);
    try destruct (functionTargets !! _);
    try destruct (readJsonBody parseW req maxBodyBytes) as [? | []];
    try destruct (readJsonBody parseF req maxBodyBytes) as [? | []];
    cbn; intuition congruence.
Qed.

(** The answer to a request does not depend on the processing: whatever
    the plugin state, the clock and the case mapping are, the handler
    owns the same requests and ends them with the same response. *)
Theorem response_independent_of_processing
  (lower1 lower2 : jsstring -> jsstring)
  (webhookTargets : gmap jsstring WebhookTarget)
  (functionTargets : gmap jsstring FunctionTarget)
  (api1 api2 : option PluginApi) (now1 now2 : N) (req : IncomingMessage) :
  let w1 := handleChannelTalkWebhook lower1 parseW webhookTargets
              api1 now1 req in
  let w2 := handleChannelTalkWebhook lower2 parseW webhookTargets
              api2 now2 req in
  let f1 := handleChannelTalkFunction lower1 parseF functionTargets
              api1 now1 req in
  let f2 := handleChannelTalkFunction lower2 parseF functionTargets
              api2 now2 req in
  owned w1 = owned w2 /\ response w1 = response w2
  /\ owned f1 = owned f2 /\ response f1 = response f2.
Proof.
  unfold handleChannelTalkWebhook, handleChannelTalkFunction.
  destruct (negb (startsWith (req_pathname req) WEBHOOK_PREFIX));
    destruct (negb (startsWith (req_pathname req) FUNCTION_PREFIX));
    destruct (negb (optIs (req_method req) (js "POST")));
    destruct (negb (optIs (req_method req) (js "PUT")));
    try destruct (webhookTargets !! _);
    try destruct (functionTargets !! _);
    try destruct (readJsonBody parseW req maxBodyBytes) as [? | []];
    try destruct (readJsonBody parseF req maxBodyBytes) as [? | []];
    repeat split.
Qed.

(** The account id is the first non-empty path segment after the
    prefix, and [default] when there is none; a path that merely goes on
    after the prefix without a slash names an account as well. *)
Theorem accountId_from_path (prefix id rest : jsstring) :
  id <> [] ->
  forallb (fun c => negb (c =? 47)) id = true ->
  accountIdOfPath prefix (prefix ++ [47] ++ id) = id
  /\ accountIdOfPath prefix (prefix ++ [47] ++ id ++ 47 :: rest) = id
  /\ accountIdOfPath prefix (prefix ++ [47; 47] ++ id) = id
  /\ accountIdOfPath prefix (prefix ++ id) = id
  /\ accountIdOfPath prefix prefix = js "default"
  /\ accountIdOfPath prefix (prefix ++ [47]) = js "default".
Proof.
  intros Hne Hid. unfold accountIdOfPath.
  assert (Hn : nonEmpty id = true) by now destruct id.
  repeat split.
  - rewrite drop_app_length. cbn [app split].
    rewrite N.eqb_refl, split_no_sep by assumption.
    cbn. now rewrite Hn.
  - rewrite drop_app_length. cbn [app split].
    rewrite N.eqb_refl, split_app_sep by assumption.
    cbn. now rewrite Hn.
  - rewrite drop_app_length. cbn [app split].
    rewrite !N.eqb_refl, split_no_sep by assumption.
    cbn. now rewrite Hn.
  - rewrite drop_app_length, split_no_sep by assumption.
    cbn. now rewrite Hn.
  - rewrite <- (app_nil_r prefix) at 2. now rewrite drop_app_length.
  - now rewrite drop_app_length.
Qed.

End Boundary.

Lemma body_size_cap_witness :
  readJsonBody parseEvent
    {| req_method := Some (js "POST"); req_pathname := webhookPath;
       req_chunks := [[Byte.x7b]; [Byte.x7d]]; req_close := StreamEnd |} 1
  = inr payload_too_large
  /\ exists data,
       readJsonBody parseEvent
         {| req_method := Some (js "POST"); req_pathname := webhookPath;
            req_chunks := [[Byte.x7b]; [Byte.x7d]]; req_close := StreamEnd |} 2
       = inl data.
Proof.
  split.
  - apply (proj1 (body_size_cap parseEvent _ 1)). reflexivity.
  - eexists.
    refine (proj2 (body_size_cap parseEvent _ 2) _).
    discriminate.
Defined.

Lemma accountId_from_path_witness :
  accountIdOfPath WEBHOOK_PREFIX (js "/webhooks/channel-talk/acme/extra")
  = js "acme".
Proof.
  refine (proj1 (proj2 (accountId_from_path WEBHOOK_PREFIX (js "acme")
                          (js "extra") _ eq_refl))).
  discriminate.
Defined.

End HttpProps.

(** ** The function path, sender names and the account lifecycle *)

Module LifecycleProps.
Import Api Webhook WebhookHandler FunctionEndpoint Channel Registry.
Import JsFacts TrimFacts Statements Statements2 Statements3 Sample.
Import NormalizeProps WebhookProps GateProps HandlerProps.

(** The event [normalize] synthesizes, field by field. *)
Lemma normalize_synthesized (now : N) (rq : ChannelTalkFunctionRequest)
  (event : ChannelTalkWebhookEvent) :
  normalize now rq = Synthesized event ->
  exists id,
    firstNonEmpty (Statements.nestedChatId rq) (flatChatId rq) = Some id
    /\ trim (default [] (firstNonEmpty (nestedMessage rq) (flatValue rq)))
       <> []
    /\ ev_type event = Some (js "Message")
    /\ refers event ?. userChat = None
    /\ entity event = Some
         {| e_id := Some (js "function-" ++ ofNumber now);
            e_chatId := Some id;
            e_chatType := Some (chatTypeOf rq);
            e_personType := Some (callerTypeOf rq);
            e_personId := Some (callerIdOf rq);
            e_plainText :=
              Some (trim (default [] (firstNonEmpty (nestedMessage rq)
                                                    (flatValue rq))));
            e_blocks := None;
            e_createdAt := Some now |}.
Proof.
  destruct (normalize_reads rq) as (Hn & Hf & Hm & Hv & Ht & Hi).
  unfold normalize. rewrite Hn, Hf, Hm, Hv, Ht, Hi, orLit_firstNonEmpty.
  destruct (truthy (orElse (Statements.nestedChatId rq) (flatChatId rq)))
    eqn:Hc; [|discriminate]. cbn [negb].
  destruct (nonEmpty _) eqn:Htext; [|discriminate]. cbn [negb].
  intros [= <-].
  rewrite (orElse_firstNonEmpty _ _ Hc).
  destruct (firstNonEmpty (Statements.nestedChatId rq) (flatChatId rq))
    as [id|] eqn:E.
  - exists id. split; [reflexivity|]. split.
    + intros H. rewrite H in Htext. discriminate.
    + cbn. repeat split. f_equal. f_equal.
      unfold chatTypeOf. now destruct rq as [mth [ps|] cx].
  - apply orElse_falsy in E. congruence.
Qed.

Lemma resolveSender_personId (event : ChannelTalkWebhookEvent)
  (message : Entity) (pid : jsstring) :
  e_personId message = Some pid ->
  senderId (resolveSender event message) = pid.
Proof.
  intros Hid. unfold resolveSender. rewrite Hid.
  destruct (optIs _ _); [destruct (refers event ?. manager)|]; reflexivity.
Qed.

Section FunctionPath.

Variable toLowerCase : jsstring -> jsstring.

(** An event made from a command invocation always gets through the
    checks of [processWebhookEvent], unless the caller kind is [bot]: it
    has a chat id and a text by construction and, with no trigger
    keywords on its target, is never keyword-gated, also in a group
    chat.  The run works on the chat id and text [normalize] extracted,
    for the caller as sender. *)
Theorem function_events_are_processed (now : N)
  (rq : ChannelTalkFunctionRequest) (event : ChannelTalkWebhookEvent)
  (target : FunctionTarget) :
  normalize now rq = Synthesized event ->
  (callerTypeOf rq = js "bot" ->
   accept toLowerCase event (webhookTargetOf target) = None)
  /\ (callerTypeOf rq <> js "bot" ->
      exists a,
        accept toLowerCase event (webhookTargetOf target) = Some a
        /\ firstNonEmpty (Statements.nestedChatId rq) (flatChatId rq)
           = Some (a_chatId a)
        /\ a_rawBody a
           = trim (default [] (firstNonEmpty (nestedMessage rq)
                                             (flatValue rq)))
        /\ a_isGroupChat a = strEq (chatTypeOf rq) (js "group")
        /\ senderId (resolveSender event (a_message a)) = callerIdOf rq).
Proof.
  intros Hn.
  destruct (normalize_synthesized now rq event Hn)
    as (cid & Hid & Htext & Hty & Huc & He).
  assert (Hidne : cid <> []).
  { intros ->. unfold firstNonEmpty in Hid.
    destruct (Statements.nestedChatId rq) as [[|]|];
      destruct (flatChatId rq) as [[|]|]; discriminate. }
  unfold accept. rewrite He.
  apply optIs_true in Hty. rewrite Hty. cbn [negb e_personType].
  split.
  - intros ->. now rewrite (proj2 (optIs_true _ _) eq_refl).
  - intros Hbot.
    assert (Hb : optIs (Some (callerTypeOf rq)) (js "bot") = false).
    { apply optIs_false. congruence. }
    rewrite Hb. cbn [e_chatId e_chatType nullish default from_option id].
    destruct cid as [|c r]; [done|]. cbn [truthy nonEmpty negb].
    unfold rawBodyOf. cbn [e_plainText]. rewrite trim_idem.
    destruct (trim _) as [|d t] eqn:Et; [done|]. cbn [nonEmpty negb].
    cbn [webhookTargetOf triggerKeywords length Nat.ltb Nat.leb].
    rewrite andb_false_r. cbn [andb].
    eexists. split; [reflexivity|]. cbn [a_chatId a_rawBody a_isGroupChat
      a_message default from_option id].
    repeat split; try assumption.
    now apply resolveSender_personId.
Qed.

End FunctionPath.

Lemma function_events_are_processed_witness :
  exists event a,
    normalize 7 (requestWith (Some (js "G1")) None None (Some (js " hi "))
                             (Some (js "manager"))) = Synthesized event
    /\ accept asciiLower event (webhookTargetOf sampleFunctionTarget)
       = Some a
    /\ a_rawBody a = js "hi"
    /\ senderId (resolveSender event (a_message a)) = js "P1".
Proof.
  eexists.
  destruct (function_events_are_processed asciiLower 7
              (requestWith (Some (js "G1")) None None (Some (js " hi "))
                           (Some (js "manager"))) _ sampleFunctionTarget
              eq_refl) as (_ & H).
  destruct H as (a & Ha & _ & Hr & _ & Hs); [discriminate|].
  exists a. split; [reflexivity|]. split; [exact Ha|].
  split; [exact Hr | exact Hs].
Defined.

(** The display name of the sender.  A message-level author id always
    wins over the ids of the records.  For a manager with a manager
    record the name is the record's, or the literal [Manager]; the
    customer records play no part.  For every other message, also one
    of a manager without a record, it is the first present of the
    profile name, the user name and the chat name, or the literal
    [User]. *)
Theorem sender_names (event : ChannelTalkWebhookEvent) (message : Entity) :
  (forall id, e_personId message = Some id ->
              senderId (resolveSender event message) = id)
  /\ (forall mgr,
        e_personType message = Some (js "manager") ->
        refers event ?. manager = Some mgr ->
        senderName (resolveSender event message)
        = default (js "Manager") (m_name mgr)
        /\ senderEmail (resolveSender event message) = m_email mgr)
  /\ (e_personType message <> Some (js "manager")
      \/ refers event ?. manager = None ->
      senderName (resolveSender event message)
      = default (js "User")
          (firstPresent [refers event ?. user ?. u_profile ?. pr_name;
                         refers event ?. user ?. u_name;
                         refers event ?. userChat ?. uc_name])
      /\ senderEmail (resolveSender event message)
         = refers event ?. user ?. u_profile ?. pr_email).
Proof.
  unfold resolveSender. split; [|split].
  - intros pid Hid. unfold resolveSender. rewrite Hid.
    destruct (optIs _ _); [destruct (refers event ?. manager)|]; reflexivity.
  - intros mgr Hp Hm. apply optIs_true in Hp. now rewrite Hp, Hm.
  - intros H.
    assert (E : (if optIs (e_personType message) (js "manager")
                 then refers event ?. manager else None) = None).
    { destruct H as [H | H].
      - apply optIs_false in H. now rewrite H.
      - rewrite H. now destruct (optIs _ _). }
    rewrite E. cbn [senderName senderEmail]. split; [|reflexivity].
    destruct (refers event ?. user ?. u_profile ?. pr_name); [reflexivity|].
    destruct (refers event ?. user ?. u_name); [reflexivity|].
    now destruct (refers event ?. userChat ?. uc_name).
Qed.

Lemma sender_names_witness :
  senderName (resolveSender anonymousManager
                (messageOf (Some (js "G1")) (Some (js "group"))
                           (Some (js "manager")) None
                           (Some (js "Hello AI"))))
  = js "Alice".
Proof.
  exact (proj1 (proj1 (proj2 (sender_names anonymousManager
                                (messageOf (Some (js "G1"))
                                   (Some (js "group")) (Some (js "manager"))
                                   None (Some (js "Hello AI"))))) _
                      eq_refl eq_refl)).
Defined.

Lemma startsWith_app_prefix (p x : jsstring) : startsWith (p ++ x) p = true.
Proof. apply startsWith_prefix. now exists x. Qed.

(** [startAccount] in terms of the two registration functions. *)
Lemma startAccount_registers (cfg : OpenClawConfig)
  (account : ResolvedChannelTalkAccount) (regs : Registries) :
  ra_configured account = true ->
  startAccount cfg account regs
  = {| webhookTargets :=
         registerWebhookTarget (ra_accountId account)
           (webhookTargetFor cfg account) (webhookTargets regs);
       functionTargets :=
         registerFunctionTarget (ra_accountId account)
           (functionTargetFor cfg account) (functionTargets regs) |}.
Proof. unfold startAccount. now intros ->. Qed.

(** The life of an account in the two registries.  Starting a
    configured account makes both of its targets the ones found under
    its id, replacing older ones, and touches no other id; starting an
    account that lacks a credential changes nothing; stopping removes
    both targets of the account, again without touching any other id. *)
Theorem account_lifecycle (cfg : OpenClawConfig)
  (account : ResolvedChannelTalkAccount) (regs : Registries) :
  let id := ra_accountId account in
  (ra_configured account = true ->
   webhookTargets (startAccount cfg account regs) !! id
   = Some (webhookTargetFor cfg account)
   /\ functionTargets (startAccount cfg account regs) !! id
      = Some (functionTargetFor cfg account))
  /\ (ra_configured account = false -> startAccount cfg account regs = regs)
  /\ webhookTargets (stopAccount account (startAccount cfg account regs))
       !! id = None
  /\ functionTargets (stopAccount account (startAccount cfg account regs))
       !! id = None
  /\ (forall other, other <> id ->
        webhookTargets (startAccount cfg account regs) !! other
        = webhookTargets regs !! other
        /\ functionTargets (startAccount cfg account regs) !! other
           = functionTargets regs !! other
        /\ webhookTargets (stopAccount account regs) !! other
           = webhookTargets regs !! other
        /\ functionTargets (stopAccount account regs) !! other
           = functionTargets regs !! other).
Proof.
  intros id. subst id. unfold startAccount, stopAccount.
  split; [|split; [|split; [|split]]].
  - intros ->. cbn. now rewrite !lookup_insert_eq.
  - now intros ->.
  - cbn. apply lookup_delete_eq.
  - cbn. apply lookup_delete_eq.
  - intros other Hne.
    destruct (negb (ra_configured account)); cbn;
      rewrite ?lookup_insert_ne, ?lookup_delete_ne by congruence;
      repeat split.
Qed.

Section Served.

Variable toLowerCase : jsstring -> jsstring.
Variable parseW : list Byte.byte -> option (Json ChannelTalkWebhookEvent).

Lemma accountIdOfPath_segment (name : jsstring) :
  segment name -> accountIdOfPath WEBHOOK_PREFIX (webhookPathOf name) = name.
Proof.
  intros (Hne & Hslash). unfold accountIdOfPath, webhookPathOf.
  rewrite drop_app_length. cbn [app split]. rewrite N.eqb_refl.
  rewrite BlockProps.split_no_sep by assumption.
  cbn. now destruct name.
Qed.

(** While an account runs, a push event posted to the path that ends in
    its id is acknowledged and processed for the target built from the
    account; once the account is stopped the same request is answered
    with 404 and the id, and nothing is processed.  The handler takes
    the segment as it stands in the pathname and never decodes it: a
    request whose pathname writes the id in another way, as the URL
    parser does for an id with a space, is answered with 404 and the
    segment as written, although the account runs. *)
Theorem served_while_running (cfg : OpenClawConfig)
  (account : ResolvedChannelTalkAccount) (regs : Registries)
  (pluginApi : option PluginApi) (now : N) (req : IncomingMessage)
  (raw : list Byte.byte) (event : ChannelTalkWebhookEvent) :
  ra_configured account = true ->
  req_method req = Some (js "POST") ->
  received req raw ->
  parseW raw = Some (JsonValue event) ->
  let id := ra_accountId account in
  let running := startAccount cfg account regs in
  let handle targets :=
    handleChannelTalkWebhook toLowerCase parseW targets pluginApi now req in
  (segment id -> req_pathname req = webhookPathOf id ->
   handle (webhookTargets running)
   = respond 200 jsonHeaders (js "{}")
       (Some (processWebhookEvent toLowerCase pluginApi now event
                                  (webhookTargetFor cfg account)))
   /\ handle (webhookTargets (stopAccount account running))
      = respond 404 [] (js "No active Channel Talk account: " ++ id) None)
  /\ (forall written,
        segment written -> written <> id ->
        webhookTargets regs !! written = None ->
        req_pathname req = webhookPathOf written ->
        handle (webhookTargets running)
        = respond 404 [] (js "No active Channel Talk account: " ++ written)
                  None).
Proof.
  intros Hconf Hmeth (Hclose & Hbody) Hparse id running handle.
  assert (Hunrouted : forall targets name,
            segment name -> req_pathname req = webhookPathOf name ->
            targets !! name = None ->
            handleChannelTalkWebhook toLowerCase parseW targets pluginApi
                                     now req
            = respond 404 [] (js "No active Channel Talk account: " ++ name)
                      None).
  { intros targets name Hseg Hpath Hnone. unfold handleChannelTalkWebhook.
    rewrite Hpath at 1. unfold webhookPathOf at 1.
    rewrite startsWith_app_prefix. cbn [negb].
    rewrite Hmeth. cbn [optIs]. rewrite strEq_refl. cbn [negb].
    now rewrite Hpath, (accountIdOfPath_segment name Hseg), Hnone. }
  split.
  - intros Hseg Hpath. split.
    + subst handle. cbn beta.
      rewrite (webhook_routed toLowerCase parseW _ _ _ _
                 (webhookTargetFor cfg account)).
      * now rewrite (readJsonBody_parsed parseW req raw Hclose Hbody), Hparse.
      * repeat split.
        -- rewrite Hpath. apply startsWith_app_prefix.
        -- exact Hmeth.
        -- rewrite Hpath, (accountIdOfPath_segment id Hseg).
           subst running. unfold startAccount.
           rewrite Hconf. cbn. apply lookup_insert_eq.
    + apply (Hunrouted _ id Hseg Hpath).
      subst running. unfold stopAccount. cbn. apply lookup_delete_eq.
  - intros written Hseg Hne Hnone Hpath.
    apply (Hunrouted _ written Hseg Hpath).
    subst running. unfold startAccount. rewrite Hconf. cbn.
    unfold registerWebhookTarget.
    rewrite lookup_insert_ne by (subst id; congruence). exact Hnone.
Qed.

(** Without configured trigger keywords the bot name is the keyword:
    the target built for an account with a bot name and no keyword list
    lets a group message through exactly when its lower-cased text
    contains the lower-cased bot name.  An empty keyword list in the
    configuration switches the gating off. *)
Theorem bot_name_is_default_keyword (cfg : OpenClawConfig)
  (account : ResolvedChannelTalkAccount)
  (event : ChannelTalkWebhookEvent) (message : Entity) :
  ev_type event = Some (js "Message") ->
  entity event = Some message ->
  e_personType message <> Some (js "bot") ->
  rawBodyOf message <> [] ->
  e_chatType message = Some (js "group") ->
  (forall name, cfg_triggerKeywords (ra_config account) = None ->
                ra_botName account = Some name -> name <> [] ->
     shouldProcess toLowerCase event (webhookTargetFor cfg account)
     = includes (toLowerCase (rawBodyOf message)) (toLowerCase name))
  /\ (cfg_triggerKeywords (ra_config account) = Some [] ->
      shouldProcess toLowerCase event (webhookTargetFor cfg account) = true)
  /\ (cfg_triggerKeywords (ra_config account) = None ->
      truthy (ra_botName account) = false ->
      shouldProcess toLowerCase event (webhookTargetFor cfg account) = true).
Proof.
  intros Ht He Hb Hr Hg.
  rewrite (shouldProcess_unfold toLowerCase event _ message Ht He Hb Hr).
  rewrite Hg. cbn [default from_option id]. rewrite strEq_refl. cbn [andb].
  unfold webhookTargetFor. cbn [triggerKeywords].
  split; [|split].
  - intros name -> -> Hname. destruct name as [|c r]; [done|].
    cbn. now rewrite orb_false_r, negb_involutive.
  - now intros ->.
  - now intros -> ->.
Qed.

End Served.

Lemma account_lifecycle_witness :
  webhookTargets (startAccount clawConfig clawAccount noRegistrations)
    !! js "default" = Some (webhookTargetFor clawConfig clawAccount)
  /\ webhookTargets (stopAccount clawAccount
                       (startAccount clawConfig clawAccount noRegistrations))
       !! js "default" = None.
Proof.
  destruct (account_lifecycle clawConfig clawAccount noRegistrations)
    as (Hstart & _ & Hstop & _).
  split; [exact (proj1 (Hstart eq_refl)) | exact Hstop].
Defined.

(** The account [default] is served while it runs and not after it is
    stopped; the running account [my bot] is not reached by the path the
    URL parser makes of its id. *)
Lemma served_while_running_witness :
  let handle account cfg stop path :=
    let running := startAccount cfg account noRegistrations in
    handleChannelTalkWebhook Sample.asciiLower parseSampleEvent
      (webhookTargets (if stop : bool then stopAccount account running
                       else running))
      (Some openApi) 5 (requestOf (js "POST") path helloBody) in
  (exists run,
     handle clawAccount clawConfig false webhookPath
     = respond 200 jsonHeaders (js "{}") (Some run)
     /\ completion run = Returned
     /\ invokesPipeline (effects run) = true
     /\ map send_chatId (sendsOf (effects run)) = [js "C1"])
  /\ handle clawAccount clawConfig true webhookPath
     = respond 404 [] (js "No active Channel Talk account: default") None
  /\ handle spacedAccount spacedConfig false (webhookPathOf spacedIdEncoded)
     = respond 404 [] (js "No active Channel Talk account: my%20bot") None.
Proof.
  intros handle.
  assert (Hrec : forall path,
            received (requestOf (js "POST") path helloBody) helloBody)
    by (intros path; split; reflexivity).
  destruct (served_while_running Sample.asciiLower parseSampleEvent
              clawConfig clawAccount noRegistrations (Some openApi) 5
              (requestOf (js "POST") webhookPath helloBody) helloBody
              directHello eq_refl eq_refl (Hrec _) eq_refl)
    as (Hserved & _).
  destruct Hserved as (Hrun & Hstopped);
    [split; [discriminate | reflexivity] | reflexivity |].
  destruct (served_while_running Sample.asciiLower parseSampleEvent
              spacedConfig spacedAccount noRegistrations (Some openApi) 5
              (requestOf (js "POST") (webhookPathOf spacedIdEncoded)
                         helloBody)
              helloBody directHello eq_refl eq_refl (Hrec _) eq_refl)
    as (_ & Hother).
  split; [|split].
  - eexists. split; [exact Hrun|]. now vm_compute.
  - exact Hstopped.
  - refine (eq_trans (Hother spacedIdEncoded _ _ _ eq_refl) eq_refl).
    + split; [discriminate | reflexivity].
    + discriminate.
    + reflexivity.
Defined.

Lemma bot_name_is_default_keyword_witness :
  shouldProcess Sample.asciiLower groupMention
    (webhookTargetFor clawConfig clawAccount) = true.
Proof.
  refine (eq_trans
            (proj1 (bot_name_is_default_keyword Sample.asciiLower clawConfig
                      clawAccount groupMention _ eq_refl eq_refl _ _ eq_refl)
                   (js "Claw") eq_refl eq_refl _) eq_refl);
    vm_compute; discriminate.
Defined.

End LifecycleProps.

(** ** The adapters of the plugin object (channel.ts) *)

Module AdapterProps.
Import Api Webhook FunctionEndpoint Channel Adapters.
Import JsFacts TrimFacts Statements Statements2 Statements3 Sample.
Import LifecycleProps.

Lemma accountOf_accountsMap (cfg : OpenClawConfig) (id : jsstring) :
  accountOf cfg id = default emptyAccount (getAccountsMap cfg !! id).
Proof.
  unfold accountOf, getAccountsMap, getChannelSection.
  destruct cfg as [[chs|]]; cbn; [|now rewrite lookup_empty].
  destruct (chs !! channelName) as [[[accs|]]|]; cbn;
    now rewrite ?lookup_empty.
Qed.

Lemma accountOf_putAccounts (cfg : OpenClawConfig)
  (accs : gmap jsstring ChannelTalkAccountConfig) (id : jsstring) :
  accountOf (putAccounts cfg accs) id = default emptyAccount (accs !! id).
Proof.
  unfold accountOf, putAccounts. cbn. now rewrite lookup_insert_eq.
Qed.

Lemma resolveAccount_accountOf (cfg1 cfg2 : OpenClawConfig) (id : jsstring) :
  accountOf cfg1 id = accountOf cfg2 id ->
  resolveAccount cfg1 (Some id) = resolveAccount cfg2 (Some id).
Proof. unfold resolveAccount. cbn. now intros ->. Qed.

(** Enabling or disabling an account is read back by [resolveAccount]
    and changes nothing else: the credentials, the bot name, the policy
    and the lists of the account stay, every other account resolves as
    before, and the sections of the other channels are left alone. *)
Theorem setAccountEnabled_round_trip (cfg : OpenClawConfig)
  (accountId : option jsstring) (enabled : bool) :
  let id := default (js "default") accountId in
  let cfg' := setAccountEnabled cfg accountId enabled in
  ra_enabled (resolveAccount cfg' (Some id)) = enabled
  /\ ra_creds (resolveAccount cfg' (Some id))
     = ra_creds (resolveAccount cfg (Some id))
  /\ ra_configured (resolveAccount cfg' (Some id))
     = ra_configured (resolveAccount cfg (Some id))
  /\ ra_botName (resolveAccount cfg' (Some id))
     = ra_botName (resolveAccount cfg (Some id))
  /\ ra_config (resolveAccount cfg' (Some id))
     = withEnabled (ra_config (resolveAccount cfg (Some id))) enabled
  /\ (forall other, other <> id ->
        resolveAccount cfg' (Some other) = resolveAccount cfg (Some other))
  /\ (forall channel section, channel <> channelName ->
        channels cfg ?. (fun ch => ch !! channel) = Some section ->
        channels cfg' ?. (fun ch => ch !! channel) = Some section).
Proof.
  intros id cfg'. subst cfg'. unfold setAccountEnabled. fold id.
  assert (Hacc : accountOf
            (putAccounts cfg
               (<[id := withEnabled
                          (default emptyAccount (getAccountsMap cfg !! id))
                          enabled]> (getAccountsMap cfg))) id
          = withEnabled (accountOf cfg id) enabled).
  { now rewrite accountOf_putAccounts, lookup_insert_eq,
      accountOf_accountsMap. }
  split; [|split; [|split; [|split; [|split; [|split]]]]];
    try (unfold resolveAccount;
         change (default (js "default") (Some id)) with id;
         rewrite Hacc; cbn; try reflexivity; now destruct enabled).
  - intros other Hne. apply resolveAccount_accountOf.
    rewrite accountOf_putAccounts, lookup_insert_ne by congruence.
    now rewrite accountOf_accountsMap.
  - intros channel section Hne Hsec. unfold putAccounts. cbn.
    rewrite lookup_insert_ne by congruence.
    destruct (channels cfg) as [chs|]; [exact Hsec | discriminate].
Qed.

(** A deleted account is gone: it resolves without credentials and
    without bot name, as not configured but enabled, so starting it
    registers nothing; every other account resolves as before.  Unless
    its id is one of the keys every object inherits, the account is
    named by its id and its settings are the empty object, as for an
    account that was never configured. *)
Theorem deleteAccount_removes (cfg : OpenClawConfig)
  (accountId : option jsstring) (regs : Registries) :
  let id := default (js "default") accountId in
  let cfg' := deleteAccount cfg accountId in
  let account := resolveAccount cfg' (Some id) in
  ra_accountId account = id
  /\ ra_creds account = {| accessKey := []; accessSecret := [] |}
  /\ ra_botName account = None
  /\ ra_configured account = false
  /\ ra_enabled account = true
  /\ startAccount cfg' account regs = regs
  /\ (forall other, other <> id ->
        resolveAccount cfg' (Some other) = resolveAccount cfg (Some other))
  /\ (inheritedKey id = false ->
      ra_name account = id /\ ra_config account = emptyAccount).
Proof.
  intros id cfg' account. subst account cfg'. unfold deleteAccount. fold id.
  assert (Hacc : accountOf (putAccounts cfg (delete id (getAccountsMap cfg)))
                           id = emptyAccount).
  { now rewrite accountOf_putAccounts, lookup_delete_eq. }
  repeat match goal with |- _ /\ _ => split end;
    try (unfold startAccount, resolveAccount;
         change (default (js "default") (Some id)) with id;
         rewrite Hacc; reflexivity).
  - intros other Hne. apply resolveAccount_accountOf.
    rewrite accountOf_putAccounts, lookup_delete_ne by congruence.
    now rewrite accountOf_accountsMap.
  - intros _. unfold resolveAccount.
    change (default (js "default") (Some id)) with id.
    rewrite Hacc. now split.
Qed.

Lemma formatAllowFrom_In (allowFrom : list jsstring) (x : jsstring) :
  In x (formatAllowFrom allowFrom) <->
  x <> [] /\ exists e, In e allowFrom /\ x = trim e.
Proof.
  unfold formatAllowFrom. rewrite filter_In, in_map_iff. split.
  - intros ((e & <- & He) & Hne). split; [|now exists e].
    now destruct (trim e).
  - intros (Hne & e & He & ->). split; [now exists e|].
    now destruct (trim e).
Qed.

(** [formatAllowFrom] keeps exactly the entries that are not blank, each
    without the white space around it and in the order given; formatting
    a formatted list changes nothing. *)
Theorem formatAllowFrom_entries (allowFrom : list jsstring) :
  (forall x, In x (formatAllowFrom allowFrom) -> x <> [] /\ trimmed x)
  /\ (forall e, In e allowFrom -> trim e <> [] ->
                In (trim e) (formatAllowFrom allowFrom))
  /\ formatAllowFrom (formatAllowFrom allowFrom) = formatAllowFrom allowFrom
  /\ forall a b, formatAllowFrom (a ++ b)
                 = formatAllowFrom a ++ formatAllowFrom b.
Proof.
  split; [|split; [|split]].
  - intros x Hx. apply formatAllowFrom_In in Hx as (Hne & e & _ & ->).
    split; [assumption | apply trim_trimmed].
  - intros e He Hne. apply formatAllowFrom_In. split; [assumption|].
    now exists e.
  - unfold formatAllowFrom.
    induction allowFrom as [|e l IH]; [reflexivity|].
    cbn [map List.filter].
    destruct (nonEmpty (trim e)) eqn:Hn; [|exact IH].
    cbn [map List.filter]. now rewrite trim_idem, Hn, IH.
  - intros a b. unfold formatAllowFrom.
    now rewrite map_app, List.filter_app.
Qed.

Lemma startsWithCI_folded (p q x : jsstring) :
  map foldUnit p = map foldUnit q -> startsWithCI (p ++ x) q = true.
Proof.
  revert p. induction q as [|b q IH]; intros p H; [reflexivity|].
  destruct p as [|a p]; [discriminate|]. cbn in H. injection H as Hab Hpq.
  cbn. rewrite (IH p Hpq), andb_true_r. apply N.eqb_eq. now symmetry.
Qed.

(** The channel prefix is removed whatever the case of its letters. *)
Lemma stripChannelPrefix_folded (p x : jsstring) :
  map foldUnit p = map foldUnit channelPrefix ->
  stripChannelPrefix (p ++ x) = x.
Proof.
  intros H. unfold stripChannelPrefix.
  rewrite (startsWithCI_folded p channelPrefix x H).
  apply drop_app_length'.
  apply (f_equal (@length N)) in H. now rewrite !length_map in H.
Qed.

(** A target that does not begin with a letter C is left as it is. *)
Lemma stripChannelPrefix_other (c : N) (s : jsstring) :
  foldUnit c <> 67 -> stripChannelPrefix (c :: s) = c :: s.
Proof.
  intros H. unfold stripChannelPrefix.
  change channelPrefix with (99 :: js "hannel-talk:").
  cbn [startsWithCI]. change (foldUnit 99) with 67.
  assert (E : (67 =? foldUnit c) = false) by (apply N.eqb_neq; congruence).
  now rewrite E.
Qed.


(** Target strings.  A normalized target is never empty and has no
    white space around it; there is none exactly when nothing but white
    space follows the channel prefix.  Whatever [looksLikeId] accepts
    has a normalized target.  A channel prefix, in any case of its
    letters, in front of a target changes neither result. *)
Theorem target_normalisation (raw : jsstring) :
  (forall c, normalizeTarget raw = Some c ->
             c <> [] /\ trimmed c /\ c = trim (stripChannelPrefix raw))
  /\ (normalizeTarget raw = None <->
      forallb isWhiteSpace (stripChannelPrefix raw) = true)
  /\ (looksLikeId raw = true -> normalizeTarget raw <> None)
  /\ (forall p, map foldUnit p = map foldUnit channelPrefix ->
                startsWithCI raw channelPrefix = false ->
                normalizeTarget (p ++ raw) = normalizeTarget raw
                /\ looksLikeId (p ++ raw) = looksLikeId raw).
Proof.
  unfold normalizeTarget, looksLikeId.
  split; [|split; [|split]].
  - intros c. destruct (trim (stripChannelPrefix raw)) as [|d t] eqn:E;
      [discriminate|]. cbn. intros [= <-].
    split; [discriminate|]. split; [|reflexivity].
    rewrite <- E. apply trim_trimmed.
  - rewrite <- trim_empty_iff.
    destruct (trim (stripChannelPrefix raw)); cbn; split; congruence.
  - destruct (trim (stripChannelPrefix raw)) as [|d t]; cbn;
      [discriminate | congruence].
  - intros p Hp Hraw. rewrite (stripChannelPrefix_folded p raw Hp).
    unfold stripChannelPrefix. rewrite Hraw. split; reflexivity.
Qed.

Lemma target_normalisation_witness :
  normalizeTarget (js "Channel-Talk:" ++ js " @team ") = Some (js "@team")
  /\ looksLikeId (js "CHANNEL-TALK:" ++ js "group:42")
     = looksLikeId (js "group:42").
Proof.
  split.
  - destruct (target_normalisation (js " @team ")) as (_ & _ & _ & H).
    rewrite (proj1 (H (js "Channel-Talk:") eq_refl eq_refl)).
    reflexivity.
  - destruct (target_normalisation (js "group:42")) as (_ & _ & _ & H).
    exact (proj2 (H (js "CHANNEL-TALK:") eq_refl eq_refl)).
Defined.


Lemma formatAllowFrom_entries_witness :
  In (js "U1") (formatAllowFrom [js "  "; js " U1 "; js "*"]).
Proof.
  refine (proj1 (proj2 (formatAllowFrom_entries
                          [js "  "; js " U1 "; js "*"]))
                (js " U1 ") _ _).
  - right. now left.
  - discriminate.
Defined.

Lemma setAccountEnabled_round_trip_witness :
  ra_enabled (resolveAccount (setAccountEnabled clawConfig None false)
                             (Some (js "default"))) = false
  /\ ra_configured (resolveAccount (setAccountEnabled clawConfig None false)
                                   (Some (js "default"))) = true.
Proof.
  destruct (setAccountEnabled_round_trip clawConfig None false)
    as (He & _ & Hc & _).
  split; [exact He | exact (eq_trans Hc eq_refl)].
Defined.

Lemma deleteAccount_removes_witness :
  let cfg' := deleteAccount clawConfig None in
  let account := resolveAccount cfg' (Some (js "default")) in
  ra_configured account = false
  /\ startAccount cfg' account noRegistrations = noRegistrations
  /\ ra_name account = js "default"
  /\ ra_config account = emptyAccount.
Proof.
  destruct (deleteAccount_removes clawConfig None noRegistrations)
    as (_ & _ & _ & Hc & _ & Hs & _ & Hn).
  split; [exact Hc|]. split; [exact Hs|]. exact (Hn eq_refl).
Defined.

End AdapterProps.

(** ** What a run writes to the platform *)

Module OutboundProps.
Import Api Webhook JsFacts Statements Statements2 Sample.
Import WebhookProps GateProps ProcessingProps BlockProps.


Section Runs.

Variable toLowerCase : jsstring -> jsstring.


End Runs.


End OutboundProps.
